(** * PORTscanner: a ping sweep over an IP network

    A shallow embedding of [PORTscanner.py] and of the parts of the Python
    standard library it calls: [ipaddress] (as in CPython 3.11: parsing of
    IPv4 and IPv6 networks, [hosts()], [str()] of addresses) and the
    scheduling discipline of [concurrent.futures.ThreadPoolExecutor] with
    [as_completed].

    Python [int] is [Z]; Python [str] is [string], each character standing
    for the code point of its number (code points above 255 are outside the
    model); an exception is the class that was raised; a function that can
    raise returns a [result]. *)

From Stdlib Require Import ZArith List String Ascii Bool Lia.
From Stdlib Require Import Permutation Sorted.
From AAC_tactics Require Import AAC.
From AAC_tactics Require Instances.
Import ListNotations.

Local Open Scope string_scope.
Local Open Scope Z_scope.

(** ** Python values, exceptions and string primitives *)

Module Py.

(** The exception classes the program and its libraries raise or catch. *)
Inductive exn : Type :=
| BaseException
| Exception
| KeyboardInterrupt
| SystemExit
| ValueError
| AddressValueError
| NetmaskValueError
| OSError
| FileNotFoundError
| PermissionError
| IndexError.

Definition exn_eqb (a b : exn) : bool :=
  match a, b with
  | BaseException, BaseException | Exception, Exception
  | KeyboardInterrupt, KeyboardInterrupt | SystemExit, SystemExit
  | ValueError, ValueError | AddressValueError, AddressValueError
  | NetmaskValueError, NetmaskValueError | OSError, OSError
  | FileNotFoundError, FileNotFoundError
  | PermissionError, PermissionError | IndexError, IndexError => true
  | _, _ => false
  end.

(** Method resolution order of each class: the class and its bases,
    among the classes above. *)
Definition mro (e : exn) : list exn :=
  match e with
  | BaseException => [BaseException]
  | Exception => [Exception; BaseException]
  | KeyboardInterrupt => [KeyboardInterrupt; BaseException]
  | SystemExit => [SystemExit; BaseException]
  | ValueError => [ValueError; Exception; BaseException]
  | AddressValueError =>
      [AddressValueError; ValueError; Exception; BaseException]
  | NetmaskValueError =>
      [NetmaskValueError; ValueError; Exception; BaseException]
  | OSError => [OSError; Exception; BaseException]
  | FileNotFoundError =>
      [FileNotFoundError; OSError; Exception; BaseException]
  | PermissionError =>
      [PermissionError; OSError; Exception; BaseException]
  | IndexError => [IndexError; Exception; BaseException]
  end.

(** [isinstance e c]: an [except c] clause catches a raised [e]. *)
Definition isinstance (e c : exn) : bool := existsb (exn_eqb c) (mro e).

Inductive result (A : Type) : Type :=
| Ok (a : A)
| Raise (e : exn).
Arguments Ok {A} a.
Arguments Raise {A} e.

Definition bind {A B} (r : result A) (k : A -> result B) : result B :=
  match r with
  | Ok a => k a
  | Raise e => Raise e
  end.

(** [try: r  except c: h] *)
Definition try_except {A} (r : result A) (c : exn) (h : exn -> result A)
  : result A :=
  match r with
  | Ok a => Ok a
  | Raise e => if isinstance e c then h e else Raise e
  end.

Fixpoint mapM {A B} (f : A -> result B) (l : list A) : result (list B) :=
  match l with
  | [] => Ok []
  | x :: xs =>
      bind (f x) (fun y => bind (mapM f xs) (fun ys => Ok (y :: ys)))
  end.

(** [s.split(sep)] for a one-character separator. *)
Fixpoint split (sep : ascii) (s : string) : list string :=
  match s with
  | EmptyString => [EmptyString]
  | String c s' =>
      if Ascii.eqb c sep then EmptyString :: split sep s'
      else match split sep s' with
           | [] => [String c EmptyString]
           | p :: ps => String c p :: ps
           end
  end.

(** [sep.join(l)] *)
Fixpoint join (sep : string) (l : list string) : string :=
  match l with
  | [] => EmptyString
  | [x] => x
  | x :: xs => x ++ sep ++ join sep xs
  end.

(** [s.partition(sep)]: the part before the first [sep], whether [sep]
    was found, and the part after it. *)
Fixpoint partition (sep : ascii) (s : string) : string * bool * string :=
  match s with
  | EmptyString => (EmptyString, false, EmptyString)
  | String c s' =>
      if Ascii.eqb c sep then (EmptyString, true, s')
      else let '(a, found, b) := partition sep s' in (String c a, found, b)
  end.

(** The padding of ['%032x']: zeros in front of [s] up to [width]
    characters. *)
Fixpoint zero_pad (width : nat) (s : string) : string :=
  match width with
  | O => s
  | S w =>
      if Nat.ltb (String.length s) width
      then String "0"%char (zero_pad w s)
      else s
  end.

(** [c in s] for a character [c]. *)
Fixpoint contains (c : ascii) (s : string) : bool :=
  match s with
  | EmptyString => false
  | String d s' => Ascii.eqb d c || contains c s'
  end.

Fixpoint all_chars (p : ascii -> bool) (s : string) : bool :=
  match s with
  | EmptyString => true
  | String c s' => p c && all_chars p s'
  end.

Definition code (c : ascii) : Z := Z.of_N (N_of_ascii c).

Definition len (s : string) : Z := Z.of_nat (String.length s).

(** [s.isascii()]: every code point is below 128 (true of the empty
    string). *)
Definition isascii (s : string) : bool :=
  all_chars (fun c => code c <? 128) s.

(** The code points up to 255 with the Unicode property [Digit]:
    0-9 and the superscripts 2, 3 and 1. *)
Definition is_digit_char (c : ascii) : bool :=
  let n := code c in
  ((48 <=? n) && (n <=? 57)) || (n =? 178) || (n =? 179) || (n =? 185).

(** [s.isdigit()]: non-empty and only digits. *)
Definition isdigit (s : string) : bool :=
  match s with
  | EmptyString => false
  | _ => all_chars is_digit_char s
  end.

(** Value of a character as a digit in a base up to 16, if it is one. *)
Definition digit_value (c : ascii) : option Z :=
  let n := code c in
  if (48 <=? n) && (n <=? 57) then Some (n - 48)
  else if (97 <=? n) && (n <=? 102) then Some (n - 87)
  else if (65 <=? n) && (n <=? 70) then Some (n - 55)
  else None.

Fixpoint digits_value (base : Z) (acc : Z) (s : string) : option Z :=
  match s with
  | EmptyString => Some acc
  | String c s' =>
      match digit_value c with
      | Some d =>
          if d <? base then digits_value base (base * acc + d) s'
          else None
      | None => None
      end
  end.

(** [sys.get_int_max_str_digits()] *)
Definition int_max_str_digits : Z := 4300.

(** [int(s, base)] on the strings its callers here pass: digits only,
    no sign, blank or underscore.  A decimal string of more than
    [int_max_str_digits] digits is a [ValueError]; bases that are powers
    of two have no such limit. *)
Definition int_of_string (s : string) (base : Z) : result Z :=
  match s with
  | EmptyString => Raise ValueError
  | _ =>
      if (base =? 10) && (int_max_str_digits <? len s) then Raise ValueError
      else match digits_value base 0 s with
           | Some n => Ok n
           | None => Raise ValueError
           end
  end.

Definition digit_char (d : Z) : ascii :=
  if d <? 10 then ascii_of_N (Z.to_N (48 + d))
  else ascii_of_N (Z.to_N (87 + d)).

Fixpoint format_digits (fuel : nat) (base n : Z) (acc : string) : string :=
  match fuel with
  | O => acc
  | S fuel' =>
      let acc' := String (digit_char (n mod base)) acc in
      if n / base =? 0 then acc'
      else format_digits fuel' base (n / base) acc'
  end.

(** Digits of a non-negative [n] in [base]; the fuel covers every digit
    ([n < 2 ^ (log2 n + 1)]). *)
Definition format_nat (base n : Z) : string :=
  format_digits (S (Z.to_nat (Z.log2 n))) base n EmptyString.

(** [str(n)] for an [int]. *)
Definition str_of_int (n : Z) : string :=
  if n <? 0 then String "-"%char (format_nat 10 (- n)) else format_nat 10 n.

(** ['%x' % n] for [n >= 0]. *)
Definition hex (n : Z) : string := format_nat 16 n.

(** [n.bit_length()] *)
Definition bit_length (n : Z) : Z :=
  if n =? 0 then 0 else Z.log2 (Z.abs n) + 1.

(** [list(range(a, b))] *)
Definition range (a b : Z) : list Z :=
  map (fun i => a + Z.of_nat i) (seq 0 (Z.to_nat (b - a))).

(** [n.to_bytes(length, 'big')] for [0 <= n < 256 ^ length]. *)
Fixpoint to_bytes (length : nat) (n : Z) : list Z :=
  match length with
  | O => []
  | S k => to_bytes k (n / 256) ++ [n mod 256]
  end.

(** [int.from_bytes(l, 'big')] *)
Definition from_bytes (l : list Z) : Z :=
  fold_left (fun acc b => 256 * acc + b) l 0.

End Py.

Import Py.

Declare Scope py_scope.
Notation "x <- r ;; k" := (bind r (fun x => k))
  (at level 61, r at next level, right associativity) : py_scope.
Notation "' ( x , y ) <- r ;; k" := (bind r (fun '(x, y) => k))
  (at level 61, x name, y name, r at next level, right associativity)
  : py_scope.
Local Open Scope py_scope.

(** ** The [ipaddress] module of the standard library *)

Module ipaddress.

Definition IPV4LENGTH : Z := 32.
Definition IPV6LENGTH : Z := 128.

(** The second component of what [_split_addr_prefix] returns: the text
    after the slash, or the [int] [_max_prefixlen] when there is none. *)
Inductive mask_arg : Type :=
| MaskInt (prefixlen : Z)
| MaskStr (s : string).

(** Which function the attribute [hosts] of a network object is: the
    method of its class, or what [__init__] stored in the instance. *)
Inductive hosts_attr : Type :=
| HostsMethod
| HostsIter
| HostsSingle (addr : string).

Definition _split_optional_netmask (address : string)
  : result (list string) :=
  let addr := split "/" address in
  if 2 <? Z.of_nat (List.length addr) then Raise AddressValueError else Ok addr.

Definition _count_righthand_zero_bits (number bits : Z) : Z :=
  if number =? 0 then bits
  else Z.min bits (bit_length (Z.land (Z.lnot number) (number - 1))).

(** The class methods of [_IPAddressBase], shared by both versions. *)
Section IPAddressBase.
Variable _max_prefixlen : Z.
Variable _ip_int_from_string : string -> result Z.

Definition _ALL_ONES : Z := 2 ^ _max_prefixlen - 1.

Definition _split_addr_prefix (address : string)
  : result (string * mask_arg) :=
  address <- _split_optional_netmask address ;;
  match address with
  | [] => Raise IndexError
  | [addr] => Ok (addr, MaskInt _max_prefixlen)
  | [addr; mask] => Ok (addr, MaskStr mask)
  | _ => Raise ValueError
  end.

Definition _ip_int_from_prefix (prefixlen : Z) : Z :=
  Z.lxor _ALL_ONES (Z.shiftr _ALL_ONES prefixlen).

Definition _prefix_from_ip_int (ip_int : Z) : result Z :=
  let trailing_zeroes :=
    _count_righthand_zero_bits ip_int _max_prefixlen in
  let prefixlen := _max_prefixlen - trailing_zeroes in
  let leading_ones := Z.shiftr ip_int trailing_zeroes in
  let all_ones := Z.shiftl 1 prefixlen - 1 in
  if negb (leading_ones =? all_ones) then Raise ValueError
  else Ok prefixlen.

Definition _report_invalid_netmask {A} : result A :=
  Raise NetmaskValueError.

Definition _prefix_from_prefix_string (prefixlen_str : string)
  : result Z :=
  if negb (isascii prefixlen_str && isdigit prefixlen_str)
  then _report_invalid_netmask
  else
    prefixlen <- try_except (int_of_string prefixlen_str 10) ValueError
                   (fun _ => _report_invalid_netmask) ;;
    if negb ((0 <=? prefixlen) && (prefixlen <=? _max_prefixlen))
    then _report_invalid_netmask
    else Ok prefixlen.

Definition _prefix_from_ip_string (ip_str : string) : result Z :=
  ip_int <- try_except (_ip_int_from_string ip_str) AddressValueError
              (fun _ => _report_invalid_netmask) ;;
  match _prefix_from_ip_int ip_int with
  | Ok prefixlen => Ok prefixlen
  | Raise e =>
      if isinstance e ValueError then
        let ip_int := Z.lxor ip_int _ALL_ONES in
        try_except (_prefix_from_ip_int ip_int) ValueError
          (fun _ => _report_invalid_netmask)
      else Raise e
  end.

(** [_BaseAddress._check_int_address] *)
Definition _check_int_address (address : Z) : result unit :=
  if address <? 0 then Raise AddressValueError
  else if _ALL_ONES <? address then Raise AddressValueError
  else Ok tt.

End IPAddressBase.

(** *** IPv4 *)

Module V4.

Definition _max_prefixlen : Z := IPV4LENGTH.
Definition _ALL_ONES : Z := ipaddress._ALL_ONES _max_prefixlen.

Definition _parse_octet (octet_str : string) : result Z :=
  match octet_str with
  | EmptyString => Raise ValueError
  | String c0 _ =>
      if negb (isascii octet_str && isdigit octet_str)
      then Raise ValueError
      else if 3 <? len octet_str then Raise ValueError
      else if negb (String.eqb octet_str "0") && Ascii.eqb c0 "0"
      then Raise ValueError
      else
        octet_int <- int_of_string octet_str 10 ;;
        if 255 <? octet_int then Raise ValueError else Ok octet_int
  end.

Definition _ip_int_from_string (ip_str : string) : result Z :=
  match ip_str with
  | EmptyString => Raise AddressValueError
  | _ =>
      let octets := split "." ip_str in
      if negb (Z.of_nat (List.length octets) =? 4) then Raise AddressValueError
      else
        try_except
          (bytes <- mapM _parse_octet octets ;; Ok (from_bytes bytes))
          ValueError (fun _ => Raise AddressValueError)
  end.

Definition _string_from_ip_int (ip_int : Z) : string :=
  join "." (map str_of_int (to_bytes 4 ip_int)).

(** An [IPv4Address] object is its field [_ip]. *)
Definition IPv4Address_of_int (address : Z) : result Z :=
  _ <- _check_int_address _max_prefixlen address ;; Ok address.

Definition IPv4Address (address : string) : result Z :=
  if contains "/" address then Raise AddressValueError
  else _ip_int_from_string address.

Definition _make_netmask (arg : mask_arg) : result (Z * Z) :=
  prefixlen <-
    match arg with
    | MaskInt prefixlen =>
        if negb ((0 <=? prefixlen) && (prefixlen <=? _max_prefixlen))
        then _report_invalid_netmask
        else Ok prefixlen
    | MaskStr arg =>
        try_except (_prefix_from_prefix_string _max_prefixlen arg)
          NetmaskValueError
          (fun _ =>
             _prefix_from_ip_string _max_prefixlen _ip_int_from_string
               arg)
    end ;;
  netmask <- IPv4Address_of_int
               (_ip_int_from_prefix _max_prefixlen prefixlen) ;;
  Ok (netmask, prefixlen).

Record IPv4Network : Type := {
  network_address : Z;
  netmask : Z;
  _prefixlen : Z;
  hosts_of : hosts_attr
}.

(** [IPv4Network.__init__(address, strict)] for a [str]. *)
Definition IPv4Network_init (address : string) (strict : bool)
  : result IPv4Network :=
  '(addr, mask) <- _split_addr_prefix _max_prefixlen address ;;
  network_address0 <- IPv4Address addr ;;
  '(netmask, prefixlen) <- _make_netmask mask ;;
  let packed := network_address0 in
  network_address1 <-
    (if negb (Z.land packed netmask =? packed) then
       if strict then Raise ValueError
       else IPv4Address_of_int (Z.land packed netmask)
     else Ok network_address0) ;;
  Ok {| network_address := network_address1;
        netmask := netmask;
        _prefixlen := prefixlen;
        hosts_of :=
          if prefixlen =? _max_prefixlen - 1 then HostsIter
          else if prefixlen =? _max_prefixlen then HostsSingle addr
          else HostsMethod |}.

Definition hostmask (n : IPv4Network) : Z :=
  Z.lxor (netmask n) _ALL_ONES.

Definition broadcast_address (n : IPv4Network) : Z :=
  Z.lor (network_address n) (hostmask n).

(** [str(n)]: ['%s/%d' % (n.network_address, n.prefixlen)] *)
Definition str (n : IPv4Network) : string :=
  _string_from_ip_int (network_address n) ++ "/" ++ str_of_int (_prefixlen n).

Definition num_addresses (n : IPv4Network) : Z :=
  broadcast_address n - network_address n + 1.

(** [_BaseNetwork.__iter__] *)
Definition iter (n : IPv4Network) : result (list Z) :=
  let network := network_address n in
  let broadcast := broadcast_address n in
  mapM IPv4Address_of_int (range network (broadcast + 1)).

(** [n.hosts()], consumed to the end. *)
Definition hosts (n : IPv4Network) : result (list Z) :=
  match hosts_of n with
  | HostsIter => iter n
  | HostsSingle addr => a <- IPv4Address addr ;; Ok [a]
  | HostsMethod =>
      let network := network_address n in
      let broadcast := broadcast_address n in
      mapM IPv4Address_of_int (range (network + 1) broadcast)
  end.

End V4.

(** *** IPv6 *)

(** [l[i]] on a list, with Python's negative indices. *)
Definition getitem (l : list string) (i : Z) : result string :=
  let n := Z.of_nat (List.length l) in
  let j := if i <? 0 then i + n else i in
  if (0 <=? j) && (j <? n) then Ok (nth (Z.to_nat j) l EmptyString)
  else Raise IndexError.

(** [list(enumerate(l))] *)
Definition enumerate (l : list string) : list (Z * string) :=
  combine (range 0 (Z.of_nat (List.length l))) l.

Module V6.

Definition _max_prefixlen : Z := IPV6LENGTH.
Definition _ALL_ONES : Z := ipaddress._ALL_ONES _max_prefixlen.
Definition _HEXTET_COUNT : Z := 8.

(** Membership in [_HEX_DIGITS]. *)
Definition is_hex_digit (c : ascii) : bool :=
  match digit_value c with
  | Some _ => true
  | None => false
  end.

Definition _parse_hextet (hextet_str : string) : result Z :=
  if negb (all_chars is_hex_digit hextet_str) then Raise ValueError
  else if 4 <? len hextet_str then Raise ValueError
  else int_of_string hextet_str 16.

(** The loop that looks for an empty part strictly inside [parts]. *)
Fixpoint find_skip (parts : list string) (indices : list Z)
    (skip_index : option Z) : result (option Z) :=
  match indices with
  | [] => Ok skip_index
  | i :: rest =>
      part <- getitem parts i ;;
      if String.eqb part "" then
        match skip_index with
        | Some _ => Raise AddressValueError
        | None => find_skip parts rest (Some i)
        end
      else find_skip parts rest skip_index
  end.

(** The loops that shift the hextets of [parts] into [ip_int]. *)
Fixpoint parse_hextets (parts : list string) (indices : list Z)
    (ip_int : Z) : result Z :=
  match indices with
  | [] => Ok ip_int
  | i :: rest =>
      part <- getitem parts i ;;
      hextet <- _parse_hextet part ;;
      parse_hextets parts rest (Z.lor (Z.shiftl ip_int 16) hextet)
  end.

Definition _ip_int_from_string (ip_str : string) : result Z :=
  match ip_str with
  | EmptyString => Raise AddressValueError
  | _ =>
    let parts := split ":" ip_str in
    let _min_parts := 3 in
    if Z.of_nat (List.length parts) <? _min_parts
    then Raise AddressValueError
    else
    parts <-
      (last_part <- getitem parts (-1) ;;
       if contains "." last_part then
         ipv4_int <- try_except (V4.IPv4Address last_part)
                       AddressValueError
                       (fun _ => Raise AddressValueError) ;;
         Ok (removelast parts
               ++ [hex (Z.land (Z.shiftr ipv4_int 16) 65535);
                   hex (Z.land ipv4_int 65535)])%list
       else Ok parts) ;;
    let nparts := Z.of_nat (List.length parts) in
    let _max_parts := _HEXTET_COUNT + 1 in
    if _max_parts <? nparts then Raise AddressValueError
    else
    skip_index <- find_skip parts (range 1 (nparts - 1)) None ;;
    first <- getitem parts 0 ;;
    last <- getitem parts (-1) ;;
    bind
      match skip_index with
      | Some skip_index =>
          let parts_hi := skip_index in
          let parts_lo := nparts - skip_index - 1 in
          parts_hi <-
            (if String.eqb first "" then
               let parts_hi := parts_hi - 1 in
               if negb (parts_hi =? 0) then Raise AddressValueError
               else Ok parts_hi
             else Ok parts_hi) ;;
          parts_lo <-
            (if String.eqb last "" then
               let parts_lo := parts_lo - 1 in
               if negb (parts_lo =? 0) then Raise AddressValueError
               else Ok parts_lo
             else Ok parts_lo) ;;
          let parts_skipped := _HEXTET_COUNT - (parts_hi + parts_lo) in
          if parts_skipped <? 1 then Raise AddressValueError
          else Ok (parts_hi, parts_lo, parts_skipped)
      | None =>
          if negb (nparts =? _HEXTET_COUNT) then Raise AddressValueError
          else if String.eqb first "" then Raise AddressValueError
          else if String.eqb last "" then Raise AddressValueError
          else Ok (nparts, 0, 0)
      end
      (fun '(parts_hi, parts_lo, parts_skipped) =>
         try_except
           (ip_int <- parse_hextets parts (range 0 parts_hi) 0 ;;
            let ip_int := Z.shiftl ip_int (16 * parts_skipped) in
            parse_hextets parts (range (- parts_lo) 0) ip_int)
           ValueError (fun _ => Raise AddressValueError))
  end.

(** One turn of the loop of [_compress_hextets] over
    [(best_doublecolon_start, best_doublecolon_len, doublecolon_start,
    doublecolon_len)]. *)
Definition compress_step (st : Z * Z * Z * Z) (ih : Z * string)
  : Z * Z * Z * Z :=
  let '(best_start, best_len, start, dlen) := st in
  let '(index, hextet) := ih in
  if String.eqb hextet "0" then
    let dlen := dlen + 1 in
    let start := if start =? -1 then index else start in
    if best_len <? dlen then (start, dlen, start, dlen)
    else (best_start, best_len, start, dlen)
  else (best_start, best_len, -1, 0).

Definition _compress_hextets (hextets : list string) : list string :=
  let '(best_start, best_len, _, _) :=
    fold_left compress_step (enumerate hextets) (-1, 0, -1, 0) in
  if 1 <? best_len then
    let best_end := best_start + best_len in
    let hextets :=
      if best_end =? Z.of_nat (List.length hextets)
      then (hextets ++ [""])%list
      else hextets in
    let hextets :=
      (firstn (Z.to_nat best_start) hextets ++ [""]
         ++ skipn (Z.to_nat best_end) hextets)%list in
    if best_start =? 0 then "" :: hextets else hextets
  else hextets.

Definition _string_from_ip_int (ip_int : Z) : result string :=
  if _ALL_ONES <? ip_int then Raise ValueError
  else
    let hex_str := zero_pad 32 (hex ip_int) in
    hextets <-
      mapM (fun x =>
              n <- int_of_string (substring (Z.to_nat x) 4 hex_str) 16 ;;
              Ok (hex n))
        (map (fun i => 4 * i) (range 0 8)) ;;
    Ok (join ":" (_compress_hextets hextets)).

Definition _split_scope_id (ip_str : string)
  : result (string * option string) :=
  let '(addr, sep, scope_id) := partition "%" ip_str in
  if negb sep then Ok (addr, None)
  else if String.eqb scope_id "" || contains "%" scope_id
  then Raise AddressValueError
  else Ok (addr, Some scope_id).

Record IPv6Address : Type := {
  _ip : Z;
  _scope_id : option string
}.

Definition IPv6Address_of_int (address : Z) : result IPv6Address :=
  _ <- _check_int_address _max_prefixlen address ;;
  Ok {| _ip := address; _scope_id := None |}.

Definition IPv6Address_init (address : string) : result IPv6Address :=
  if contains "/" address then Raise AddressValueError
  else
    '(addr_str, scope_id) <- _split_scope_id address ;;
    ip <- _ip_int_from_string addr_str ;;
    Ok {| _ip := ip; _scope_id := scope_id |}.

(** [str(a)] *)
Definition str (a : IPv6Address) : result string :=
  ip_str <- _string_from_ip_int (_ip a) ;;
  match _scope_id a with
  | Some (String c s) => Ok (ip_str ++ "%" ++ String c s)
  | _ => Ok ip_str
  end.

Definition _make_netmask (arg : mask_arg) : result (Z * Z) :=
  prefixlen <-
    match arg with
    | MaskInt prefixlen =>
        if negb ((0 <=? prefixlen) && (prefixlen <=? _max_prefixlen))
        then _report_invalid_netmask
        else Ok prefixlen
    | MaskStr arg => _prefix_from_prefix_string _max_prefixlen arg
    end ;;
  netmask <- IPv6Address_of_int
               (_ip_int_from_prefix _max_prefixlen prefixlen) ;;
  Ok (_ip netmask, prefixlen).

Record IPv6Network : Type := {
  network_address : IPv6Address;
  netmask : Z;
  _prefixlen : Z;
  hosts_of : hosts_attr
}.

(** [IPv6Network.__init__(address, strict)] for a [str]. *)
Definition IPv6Network_init (address : string) (strict : bool)
  : result IPv6Network :=
  '(addr, mask) <- _split_addr_prefix _max_prefixlen address ;;
  network_address0 <- IPv6Address_init addr ;;
  '(netmask, prefixlen) <- _make_netmask mask ;;
  let packed := _ip network_address0 in
  network_address1 <-
    (if negb (Z.land packed netmask =? packed) then
       if strict then Raise ValueError
       else IPv6Address_of_int (Z.land packed netmask)
     else Ok network_address0) ;;
  Ok {| network_address := network_address1;
        netmask := netmask;
        _prefixlen := prefixlen;
        hosts_of :=
          if prefixlen =? _max_prefixlen - 1 then HostsIter
          else if prefixlen =? _max_prefixlen then HostsSingle addr
          else HostsMethod |}.

Definition hostmask (n : IPv6Network) : Z :=
  Z.lxor (netmask n) _ALL_ONES.

Definition broadcast_address (n : IPv6Network) : Z :=
  Z.lor (_ip (network_address n)) (hostmask n).

Definition iter (n : IPv6Network) : result (list IPv6Address) :=
  let network := _ip (network_address n) in
  let broadcast := broadcast_address n in
  mapM IPv6Address_of_int (range network (broadcast + 1)).

(** [n.hosts()], consumed to the end: [IPv6Network] has a method of
    its own, which keeps the last address. *)
Definition hosts (n : IPv6Network) : result (list IPv6Address) :=
  match hosts_of n with
  | HostsIter => iter n
  | HostsSingle addr => a <- IPv6Address_init addr ;; Ok [a]
  | HostsMethod =>
      let network := _ip (network_address n) in
      let broadcast := broadcast_address n in
      mapM IPv6Address_of_int (range (network + 1) (broadcast + 1))
  end.

End V6.

(** *** Either version *)

Inductive address : Type :=
| Addr4 (a : Z)
| Addr6 (a : V6.IPv6Address).

Inductive network : Type :=
| Net4 (n : V4.IPv4Network)
| Net6 (n : V6.IPv6Network).

Definition str (a : address) : result string :=
  match a with
  | Addr4 ip => Ok (V4._string_from_ip_int ip)
  | Addr6 a => V6.str a
  end.

Definition hosts (n : network) : result (list address) :=
  match n with
  | Net4 n => l <- V4.hosts n ;; Ok (map Addr4 l)
  | Net6 n => l <- V6.hosts n ;; Ok (map Addr6 l)
  end.

(** [ip_network(address, strict)] for a [str]. *)
Definition ip_network (address : string) (strict : bool) : result network :=
  match V4.IPv4Network_init address strict with
  | Ok n => Ok (Net4 n)
  | Raise e =>
      if isinstance e AddressValueError || isinstance e NetmaskValueError
      then
        match V6.IPv6Network_init address strict with
        | Ok n => Ok (Net6 n)
        | Raise e =>
            if isinstance e AddressValueError
               || isinstance e NetmaskValueError
            then Raise ValueError
            else Raise e
        end
      else Raise e
  end.

End ipaddress.

Import ipaddress.

(** ** The program *)

Module PORTscanner.

Definition MAX_THREADS : Z := 200.
Definition PING_TIMEOUT_MS : Z := 800.

(** What the operating system answers to one call of [ping]: the result
    of [open(os.devnull, "wb")] and the result of [subprocess.run] on a
    command, its [returncode] when it returns. *)
Record world : Type := {
  open_devnull : result unit;
  subprocess_run : list string -> result Z
}.

Section Platform.

(** [OS = platform.system().lower()] *)
Variable OS : string.

Definition build_ping_cmd (host : string) : list string :=
  if String.eqb OS "windows"
  then ["ping"; "-n"; "1"; "-w"; str_of_int PING_TIMEOUT_MS; host]
  else ["ping"; "-c"; "1"; "-W"; str_of_int (PING_TIMEOUT_MS / 1000);
        host].

Definition ping (w : world) (host : string) : result (string * bool) :=
  alive <- try_except
             (_ <- open_devnull w ;;
              returncode <- subprocess_run w (build_ping_cmd host) ;;
              Ok (returncode =? 0))
             Exception (fun _ => Ok false) ;;
  Ok (host, alive).

End Platform.

(** [sorted(l, key=key)]: the keys are computed first, in order, and the
    sort is stable. *)
Fixpoint insert_by_key {A} (kx : Z * A) (l : list (Z * A))
  : list (Z * A) :=
  match l with
  | [] => [kx]
  | ky :: l' =>
      if fst ky <? fst kx then ky :: insert_by_key kx l' else kx :: ky :: l'
  end.

Definition sort_by_key {A} (l : list (Z * A)) : list (Z * A) :=
  fold_right insert_by_key [] l.

Definition sorted {A} (l : list A) (key : A -> result Z)
  : result (list A) :=
  keyed <- mapM (fun x => k <- key x ;; Ok (k, x)) l ;;
  Ok (map snd (sort_by_key keyed)).

(** The cell [Text("UP", ...)] or [Text("DOWN", ...)] of a row. *)
Inductive status : Type :=
| UP
| DOWN.

(** [update_table()]: the rows of the table after the call, when the
    call returns.  It raises after [table.rows.clear()], when a key of
    the sort raises. *)
Definition update_table (results : list (string * bool))
  : result (list (string * status)) :=
  l <- sorted results (fun x => V4.IPv4Address (fst x)) ;;
  Ok (map (fun '(ip, alive) => (ip, if alive : bool then UP else DOWN)) l).

(** The state of a sweep between two atomic steps of its threads. *)
Record pool : Type := {
  unsubmitted : list string;
    (** hosts the comprehension has not reached yet *)
  queue : list string;
    (** work items submitted and not yet taken by a worker thread *)
  running : list string;
    (** hosts whose [ping] a worker thread is executing *)
  finished : list (string * result (string * bool));
    (** entries of [future_to_host] whose future is done and which
        [as_completed] has not yielded yet: the host and the result or
        exception the future holds *)
  results : list (string * bool);
  advanced : Z;
    (** calls of [progress.advance(task)] *)
  rows : list (string * status);
    (** [table.rows] *)
  probed : list string;
    (** hosts for which [ping] has been called *)
  raised : option exn
    (** the exception propagating in the main thread, if any *)
}.

Definition init (hosts : list string) : pool :=
  {| unsubmitted := hosts; queue := []; running := []; finished := [];
     results := []; advanced := 0; rows := []; probed := [];
     raised := None |}.

(** [l] without its [k]-th element. *)
Definition remove_nth {A} (k : nat) (l : list A) : list A :=
  firstn k l ++ skipn (S k) l.

Inductive event : Type :=
| Submit
    (** the main thread submits the next host to the executor *)
| Start
    (** a worker thread takes the next work item and calls [ping] *)
| Finish (k : nat) (w : world)
    (** the [k]-th running [ping] ends, the system having answered [w] *)
| Yield (k : nat)
    (** [as_completed] yields the [k]-th done future and the main thread
        runs the body of the loop *)
| Interrupt.
    (** [KeyboardInterrupt] is raised in the main thread *)

Section Sweep.

Variable OS : string.

(** The body of the loop over [as_completed], for a future holding
    [f]. *)
Definition loop_body (st : pool) (f : result (string * bool)) : pool :=
  match f with
  | Raise e =>
      {| unsubmitted := unsubmitted st; queue := queue st;
         running := running st; finished := finished st;
         results := results st; advanced := advanced st;
         rows := rows st; probed := probed st; raised := Some e |}
  | Ok r =>
      let results' := (results st ++ [r])%list in
      match update_table results' with
      | Ok rows' =>
          {| unsubmitted := unsubmitted st; queue := queue st;
             running := running st; finished := finished st;
             results := results'; advanced := advanced st + 1;
             rows := rows'; probed := probed st; raised := None |}
      | Raise e =>
          {| unsubmitted := unsubmitted st; queue := queue st;
             running := running st; finished := finished st;
             results := results'; advanced := advanced st + 1;
             rows := []; probed := probed st; raised := Some e |}
      end
  end.

(** One step of the sweep; [None] when the event cannot happen in the
    state.  A worker thread exists for a work item only while fewer
    than [max_workers] are busy; the main thread submits every host
    before it iterates over [as_completed], and does nothing more once
    an exception propagates in it. *)
Definition step (st : pool) (ev : event) : option pool :=
  match ev with
  | Submit =>
      match raised st, unsubmitted st with
      | None, h :: rest =>
          Some {| unsubmitted := rest; queue := (queue st ++ [h])%list;
                  running := running st; finished := finished st;
                  results := results st; advanced := advanced st;
                  rows := rows st; probed := probed st;
                  raised := None |}
      | _, _ => None
      end
  | Start =>
      match queue st with
      | h :: rest =>
          if Z.of_nat (List.length (running st)) <? MAX_THREADS then
            Some {| unsubmitted := unsubmitted st; queue := rest;
                    running := (running st ++ [h])%list;
                    finished := finished st;
                    results := results st; advanced := advanced st;
                    rows := rows st; probed := (probed st ++ [h])%list;
                    raised := raised st |}
          else None
      | [] => None
      end
  | Finish k w =>
      match nth_error (running st) k with
      | Some h =>
          Some {| unsubmitted := unsubmitted st; queue := queue st;
                  running := remove_nth k (running st);
                  finished := (finished st ++ [(h, ping OS w h)])%list;
                  results := results st; advanced := advanced st;
                  rows := rows st; probed := probed st;
                  raised := raised st |}
      | None => None
      end
  | Yield k =>
      match raised st, unsubmitted st, nth_error (finished st) k with
      | None, [], Some (_, f) =>
          Some (loop_body
                  {| unsubmitted := []; queue := queue st;
                     running := running st;
                     finished := remove_nth k (finished st);
                     results := results st; advanced := advanced st;
                     rows := rows st; probed := probed st;
                     raised := None |} f)
      | _, _, _ => None
      end
  | Interrupt =>
      match raised st with
      | None =>
          Some {| unsubmitted := unsubmitted st; queue := queue st;
                  running := running st; finished := finished st;
                  results := results st; advanced := advanced st;
                  rows := rows st; probed := probed st;
                  raised := Some KeyboardInterrupt |}
      | Some _ => None
      end
  end.

Fixpoint run (st : pool) (schedule : list event) : option pool :=
  match schedule with
  | [] => Some st
  | ev :: rest =>
      match step st ev with
      | Some st' => run st' rest
      | None => None
      end
  end.

(** How a call of [sweep_network] ends. *)
Inductive outcome : Type :=
| Returned (results : list (string * bool))
| Raised (e : exn)
| Exited (code : Z).

Definition is_nil {A} (l : list A) : bool :=
  match l with
  | [] => true
  | _ => false
  end.

(** The end of the two [with] blocks: the loop is over when every
    future has been yielded; an exception leaves the blocks once the
    executor has run the work items it was given. *)
Definition leave (st : pool) : option outcome :=
  match raised st with
  | Some e =>
      if is_nil (queue st) && is_nil (running st) then Some (Raised e)
      else None
  | None =>
      if is_nil (unsubmitted st) && is_nil (queue st)
         && is_nil (running st) && is_nil (finished st)
      then Some (Returned (results st))
      else None
  end.

(** [hosts = [str(ip) for ip in network.hosts()]] *)
Definition host_strings (network : ipaddress.network)
  : result (list string) :=
  l <- ipaddress.hosts network ;; mapM ipaddress.str l.

(** [sweep_network(subnet)] under a schedule of its threads: how the
    call ends and the state it ends in, or [None] when the schedule is
    not a whole execution of the call. *)
Definition sweep_network (subnet : string) (schedule : list event)
  : option (outcome * pool) :=
  match ip_network subnet false with
  | Raise e =>
      if isinstance e ValueError then
        match schedule with
        | [] => Some (Exited 1, init [])
        | _ => None
        end
      else
        match schedule with
        | [] => Some (Raised e, init [])
        | _ => None
        end
  | Ok network =>
      match host_strings network with
      | Raise e =>
          match schedule with
          | [] => Some (Raised e, init [])
          | _ => None
          end
      | Ok hosts =>
          match run (init hosts) schedule with
          | Some st =>
              match leave st with
              | Some o => Some (o, st)
              | None => None
              end
          | None => None
          end
      end
  end.

End Sweep.

End PORTscanner.

Import PORTscanner.

(** ** The entry point *)

Module Entry.

(** The code points up to 255 that [str.strip()] removes. *)
Definition is_space (c : ascii) : bool :=
  let n := code c in
  ((9 <=? n) && (n <=? 13)) || ((28 <=? n) && (n <=? 32))
  || (n =? 133) || (n =? 160).

Fixpoint lstrip (s : string) : string :=
  match s with
  | EmptyString => EmptyString
  | String c s' => if is_space c then lstrip s' else s
  end.

Fixpoint rstrip (s : string) : string :=
  match s with
  | EmptyString => EmptyString
  | String c s' =>
      match rstrip s' with
      | EmptyString => if is_space c then EmptyString else String c EmptyString
      | t => String c t
      end
  end.

(** [s.strip()] *)
Definition strip (s : string) : string := rstrip (lstrip s).

(** What [socket.gethostbyaddr(ip)] does: it returns a triple whose first
    component is the host name, raises [socket.herror], or raises
    something else, given by its class among those of [exn]
    ([socket.gaierror] is an [OSError]). *)
Inductive lookup : Type :=
| Resolved (hostname : string)
| Herror
| LookupRaises (e : exn).

(** What [main] prints, in order; the elapsed time of the summary is left
    out, and [None] as a host name stands for the dash. *)
Inductive message : Type :=
| Banner
| NoSubnetEntered
| Aborted
| BlankLine
| InvalidSubnet
| Summary (up total : nat)
| DiscoveredDevices
| Device (ip : string) (hostname : option string)
| NoLiveHostsFound.

(** How a call of [main] ends. *)
Inductive ending : Type :=
| Returns
| Raises (e : exn)
| Exits (code : Z).

(** The loop over [up_hosts]. *)
Fixpoint report_devices (gethostbyaddr : string -> lookup)
    (up_hosts : list string) (out : list message)
  : ending * list message :=
  match up_hosts with
  | [] => (Returns, out)
  | ip :: rest =>
      match gethostbyaddr ip with
      | Resolved hostname =>
          report_devices gethostbyaddr rest
            (out ++ [Device ip (Some hostname)])%list
      | Herror =>
          report_devices gethostbyaddr rest (out ++ [Device ip None])%list
      | LookupRaises e => (Raises e, out)
      end
  end.

(** [up_hosts = [ip for ip, alive in results if alive]] *)
Definition up_hosts (results : list (string * bool)) : list string :=
  map fst (filter snd results).

(** [main()], given what [console.input] returns or raises, the schedule
    of the sweep and the resolver: how the call ends and what it has
    printed, or [None] when the schedule is not a whole execution of the
    sweep the call makes (the empty schedule when it makes none). *)
Definition main (OS : string) (console_input : result string)
    (schedule : list event) (gethostbyaddr : string -> lookup)
  : option (ending * list message) :=
  match console_input with
  | Raise e =>
      match schedule with
      | [] =>
          if isinstance e KeyboardInterrupt
          then Some (Returns, [Banner; Aborted])
          else Some (Raises e, [Banner])
      | _ => None
      end
  | Ok line =>
      let subnet := strip line in
      match subnet with
      | EmptyString =>
          match schedule with
          | [] => Some (Returns, [Banner; NoSubnetEntered])
          | _ => None
          end
      | _ =>
          match sweep_network OS subnet schedule with
          | None => None
          | Some (Exited code, _) =>
              Some (Exits code, [Banner; BlankLine; InvalidSubnet])
          | Some (Raised e, _) => Some (Raises e, [Banner; BlankLine])
          | Some (Returned results, _) =>
              let up := up_hosts results in
              let out :=
                [Banner; BlankLine; BlankLine;
                 Summary (List.length up) (List.length results)] in
              match up with
              | [] => Some (Returns, (out ++ [NoLiveHostsFound])%list)
              | _ =>
                  Some (report_devices gethostbyaddr up
                          (out ++ [DiscoveredDevices])%list)
              end
          end
      end
  end.

End Entry.

Import Entry.

(** The devices of the lines [main] printed, in order. *)
Fixpoint devices (out : list message) : list (string * option string) :=
  match out with
  | [] => []
  | Device ip hostname :: rest => (ip, hostname) :: devices rest
  | _ :: rest => devices rest
  end.

(** Two answers of the system: the command exits with status 0, or with
    status 1. *)
Definition world_up : world :=
  {| open_devnull := Ok tt; subprocess_run := fun _ => Ok 0 |}.


(** The system refuses to launch the command. *)
Definition world_denied : world :=
  {| open_devnull := Ok tt;
     subprocess_run := fun _ => Raise PermissionError |}.




(** Every host of a sweep is in exactly one place: not yet submitted,
    queued, running, done and not yet yielded, or recorded in [results];
    and a done future holds an outcome for its own host. *)
Definition accounted (hosts : list string) (st : pool) : Prop :=
  Permutation hosts
    (unsubmitted st ++ queue st ++ running st
       ++ map fst (finished st) ++ map fst (results st))%list
  /\ Forall (fun hf => forall r, snd hf = Ok r -> fst r = fst hf)
       (finished st).

(** What is needed of [str(n)] for an octet [n]: it parses back to [n], it
    is not empty and holds neither a dot nor a slash. *)
Definition octet_ok (n : Z) : bool :=
  match V4._parse_octet (str_of_int n) with
  | Ok m => m =? n
  | Raise _ => false
  end
  && negb (contains "." (str_of_int n))
  && negb (contains "/" (str_of_int n))
  && negb (String.eqb (str_of_int n) "").

(** What is needed of the netmask of a prefix length [p]: with its
    hostmask it splits the 32 bits in two, and the hostmask is
    [2 ^ (32 - p) - 1]. *)
Definition prefix_ok (p : Z) : bool :=
  let nm := _ip_int_from_prefix V4._max_prefixlen p in
  let hm := Z.lxor nm V4._ALL_ONES in
  (hm =? 2 ^ (32 - p) - 1) && (Z.land nm hm =? 0)
  && (Z.lor nm hm =? V4._ALL_ONES) && (0 <=? nm) && (nm <=? V4._ALL_ONES).

(** What is needed of [str(p)] for a prefix length [p]: it is read back as
    the prefix length [p]. *)
Definition prefix_str_ok (p : Z) : bool :=
  match _prefix_from_prefix_string V4._max_prefixlen (str_of_int p) with
  | Ok q => q =? p
  | Raise _ => false
  end.




(** What is needed of the netmask of an IPv6 prefix length [p]: it shares
    no bit with its hostmask, which is [2 ^ (128 - p) - 1]. *)
Definition prefix6_ok (p : Z) : bool :=
  let nm := _ip_int_from_prefix V6._max_prefixlen p in
  let hm := Z.lxor nm V6._ALL_ONES in
  (Z.land nm hm =? 0) && (hm =? 2 ^ (128 - p) - 1).

(** Hosts and outcomes still in the executor, and outcomes recorded. *)
Definition in_hand (st : pool) : nat :=
  (List.length (unsubmitted st) + List.length (queue st)
   + List.length (running st) + List.length (finished st)
   + List.length (results st))%nat.

(** Every done future and every recorded outcome is what [ping] returned
    for its host under an answer of the system that occurs in [all]. *)
Definition from_ping (OS : string) (all : list event) (st : pool) : Prop :=
  (forall h f, In (h, f) (finished st) ->
               exists k w, In (Finish k w) all /\ f = ping OS w h)
  /\ (forall x, In x (results st) ->
                exists k w, In (Finish k w) all /\ ping OS w (fst x) = Ok x).

(** The host name [main] prints for an answer of the resolver that is not
    an error other than [socket.herror]. *)
Definition hostname_of (l : lookup) : option string :=
  match l with
  | Resolved hostname => Some hostname
  | Herror => None
  | LookupRaises _ => None
  end.

(** The system interrupts the command. *)
Definition world_interrupted : world :=
  {| open_devnull := Ok tt;
     subprocess_run := fun _ => Raise KeyboardInterrupt |}.

(** * Facts *)

Local Open Scope list_scope.

(** ** The command line *)

(** C10: on every platform other than Windows the timeout argument of the
    command is [PING_TIMEOUT_MS // 1000], which is 0: the command is
    [ping -c 1 -W 0 host]. *)
Theorem build_ping_cmd_timeout_is_zero :
  forall (OS host : string),
    OS <> "windows" ->
    PING_TIMEOUT_MS / 1000 = 0
    /\ build_ping_cmd OS host
       = ["ping"; "-c"; "1"; "-W"; str_of_int (PING_TIMEOUT_MS / 1000); host]
    /\ build_ping_cmd OS host = ["ping"; "-c"; "1"; "-W"; "0"; host].
Proof.
  intros OS host Hos.
  apply String.eqb_neq in Hos.
  unfold build_ping_cmd. rewrite Hos.
  repeat split; reflexivity.
Qed.

Lemma build_ping_cmd_timeout_is_zero_linux :
  "linux" <> "windows"
  /\ build_ping_cmd "linux" "10.0.0.1"
     = ["ping"; "-c"; "1"; "-W"; "0"; "10.0.0.1"].
Proof.
  assert (H : "linux" <> "windows") by discriminate.
  split; [exact H |].
  exact (proj2 (proj2 (build_ping_cmd_timeout_is_zero "linux" "10.0.0.1" H))).
Defined.

(** ** The probe *)

Lemma ping_host :
  forall OS w host r, ping OS w host = Ok r -> fst r = host.
Proof.
  intros OS w host r. unfold ping, try_except, bind.
  destruct (open_devnull w) as [[]|e].
  - destruct (subprocess_run w _) as [rc|e].
    + intros H; inversion H; reflexivity.
    + destruct (isinstance e Exception); intros H; inversion H; reflexivity.
  - destruct (isinstance e Exception); intros H; inversion H; reflexivity.
Qed.

(** C5: whatever the host, when every error of the underlying check is an
    [Exception] (an [OSError] such as a permission denial or a command that
    cannot be launched), [ping] returns [(host, alive)] and raises nothing;
    [alive] is true only when the command ran and exited with status 0, so
    every failure gives [(host, False)]. *)
Theorem ping_never_raises :
  forall (OS : string) (w : world) (host : string),
    (forall e, open_devnull w = Raise e -> isinstance e Exception = true) ->
    (forall cmd e,
        subprocess_run w cmd = Raise e -> isinstance e Exception = true) ->
    exists alive,
      ping OS w host = Ok (host, alive)
      /\ (alive = true <->
          open_devnull w = Ok tt
          /\ subprocess_run w (build_ping_cmd OS host) = Ok 0).
Proof.
  intros OS w host Hopen Hrun.
  unfold ping, try_except, bind.
  destruct (open_devnull w) as [[]|e] eqn:Eo.
  - destruct (subprocess_run w (build_ping_cmd OS host)) as [rc|e] eqn:Er.
    + exists (rc =? 0). split; [reflexivity |].
      split.
      * intros H. apply Z.eqb_eq in H. subst rc. split; reflexivity.
      * intros [_ H]. inversion H. reflexivity.
    + rewrite (Hrun _ _ Er). exists false. split; [reflexivity |].
      split; [discriminate | intros [_ H]; discriminate].
  - rewrite (Hopen _ eq_refl). exists false. split; [reflexivity |].
    split; [discriminate | intros [H _]; discriminate].
Qed.

Lemma ping_never_raises_denied :
  exists alive,
    ping "linux" world_denied "10.0.0.1" = Ok ("10.0.0.1", alive)
    /\ (alive = true <->
        open_devnull world_denied = Ok tt
        /\ subprocess_run world_denied (build_ping_cmd "linux" "10.0.0.1")
           = Ok 0).
Proof.
  apply (ping_never_raises "linux" world_denied "10.0.0.1").
  - intros e H. discriminate H.
  - intros cmd e H. simpl in H. inversion H. reflexivity.
Defined.

(** ** The executor *)

Lemma remove_nth_split :
  forall {A} (l : list A) k x,
    nth_error l k = Some x ->
    exists l1 l2, l = l1 ++ x :: l2 /\ remove_nth k l = l1 ++ l2.
Proof.
  intros A l.
  induction l as [|a l IH]; intros k x H.
  - destruct k; discriminate H.
  - destruct k as [|k]; simpl in H.
    + inversion H; subst. exists [], l. split; reflexivity.
    + destruct (IH k x H) as (l1 & l2 & Hl & Hr).
      exists (a :: l1), l2. split.
      * simpl. rewrite <- Hl. reflexivity.
      * unfold remove_nth in *. simpl in *. rewrite Hr. reflexivity.
Qed.





(** At the ceiling no worker thread takes a work item. *)
Lemma start_waits_at_ceiling :
  forall OS st,
    Z.of_nat (List.length (running st)) = MAX_THREADS ->
    step OS st Start = None.
Proof.
  intros OS st H. simpl.
  destruct (queue st); [reflexivity |].
  rewrite H, Z.ltb_irrefl. reflexivity.
Qed.

Lemma step_raised_sticky :
  forall OS st ev st' e,
    step OS st ev = Some st' -> raised st = Some e -> raised st' = Some e.
Proof.
  intros OS st ev st' e Hstep Hr.
  destruct ev as [| |k w|k|]; simpl in Hstep; rewrite ?Hr in Hstep;
    try discriminate.
  - destruct (queue st); [discriminate |].
    destruct (_ <? _); [| discriminate].
    inversion Hstep; subst; simpl. first [exact Hr | reflexivity].
  - destruct (nth_error (running st) k); [| discriminate].
    inversion Hstep; subst; simpl. first [exact Hr | reflexivity].
Qed.

Lemma run_raised_sticky :
  forall OS schedule st st' e,
    run OS st schedule = Some st' -> raised st = Some e ->
    raised st' = Some e.
Proof.
  intros OS schedule.
  induction schedule as [|ev rest IH]; intros st st' e Hrun Hr;
    simpl in Hrun.
  - inversion Hrun; subst. exact Hr.
  - destruct (step OS st ev) as [st1|] eqn:E; [| discriminate].
    apply (IH st1 st' e Hrun).
    exact (step_raised_sticky OS st ev st1 e E Hr).
Qed.


Lemma is_nil_true : forall {A} (l : list A), is_nil l = true -> l = [].
Proof. intros A [|x l]; [reflexivity | discriminate]. Qed.

Section Moves.

Import Instances.Lists.

Variable A : Type.
Implicit Types (x : A) (a b c d e : list A).

Lemma perm_submit :
  forall x a b c, Permutation ((x :: a) ++ b ++ c) (a ++ (b ++ [x]) ++ c).
Proof.
  intros. change (x :: a) with ([x] ++ a). aac_reflexivity.
Qed.

Lemma perm_start :
  forall x a b c d,
    Permutation (a ++ (x :: b) ++ c ++ d) (a ++ b ++ (c ++ [x]) ++ d).
Proof.
  intros. change (x :: b) with ([x] ++ b). aac_reflexivity.
Qed.

Lemma perm_finish :
  forall x a b c d e,
    Permutation (a ++ (b ++ x :: c) ++ d ++ e)
      (a ++ (b ++ c) ++ (d ++ [x]) ++ e).
Proof.
  intros. change (x :: c) with ([x] ++ c). aac_reflexivity.
Qed.

Lemma perm_yield :
  forall x a b c d,
    Permutation (a ++ (b ++ x :: c) ++ d) (a ++ (b ++ c) ++ d ++ [x]).
Proof.
  intros. change (x :: c) with ([x] ++ c). aac_reflexivity.
Qed.

End Moves.

Lemma step_raised_none :
  forall OS st ev st',
    step OS st ev = Some st' -> raised st' = None -> raised st = None.
Proof.
  intros OS st ev st' Hstep Hn.
  destruct (raised st) as [e|] eqn:E; [| reflexivity].
  rewrite (step_raised_sticky OS st ev st' e Hstep E) in Hn. discriminate.
Qed.

Lemma step_accounted :
  forall OS hosts st ev st',
    step OS st ev = Some st' ->
    accounted hosts st -> raised st' = None -> accounted hosts st'.
Proof.
  intros OS hosts st ev st' Hstep [Hp Hf] Hn.
  destruct ev as [| |k w|k|]; simpl in Hstep.
  - destruct (raised st); [discriminate |].
    destruct (unsubmitted st) as [|h rest]; [discriminate |].
    inversion Hstep; subst; clear Hstep. split; simpl; [| exact Hf].
    rewrite Hp. apply perm_submit.
  - destruct (queue st) as [|h rest]; [discriminate |].
    destruct (_ <? _); [| discriminate].
    inversion Hstep; subst; clear Hstep. split; simpl; [| exact Hf].
    rewrite Hp. apply perm_start.
  - destruct (nth_error (running st) k) as [h|] eqn:E; [| discriminate].
    destruct (remove_nth_split _ _ _ E) as (l1 & l2 & Hl & Hr).
    inversion Hstep; subst; clear Hstep. split; simpl.
    + rewrite Hp, Hr, Hl. rewrite map_app. simpl.
      rewrite !(app_assoc (unsubmitted st)). apply perm_finish.
    + apply Forall_app. split; [exact Hf |].
      constructor; [| constructor]. simpl.
      intros r H. exact (ping_host OS w h r H).
  - destruct (raised st); [discriminate |].
    destruct (unsubmitted st) as [|]  eqn:Eu; [| discriminate].
    destruct (nth_error (finished st) k) as [[h f]|] eqn:E; [| discriminate].
    destruct (remove_nth_split _ _ _ E) as (l1 & l2 & Hl & Hr).
    inversion Hstep; subst; clear Hstep.
    rewrite Hl in Hf. apply Forall_app in Hf. destruct Hf as [Hf1 Hf2].
    inversion Hf2 as [|? ? Hh Hf3]; subst.
    unfold loop_body in *. destruct f as [r|e]; [| discriminate Hn].
    destruct (update_table _); simpl in Hn; [| discriminate Hn].
    split; simpl.
    + rewrite Hp, Hr, Hl. rewrite !map_app. simpl.
      rewrite (Hh r eq_refl). simpl.
      rewrite !(app_assoc (queue st)). apply perm_yield.
    + rewrite Hr. apply Forall_app. split; assumption.
  - destruct (raised st); [discriminate |].
    inversion Hstep; subst. discriminate Hn.
Qed.

Lemma run_accounted :
  forall OS hosts schedule st st',
    run OS st schedule = Some st' ->
    accounted hosts st -> raised st' = None -> accounted hosts st'.
Proof.
  intros OS hosts schedule.
  induction schedule as [|ev rest IH]; intros st st' Hrun Ha Hn;
    simpl in Hrun.
  - inversion Hrun; subst. exact Ha.
  - destruct (step OS st ev) as [st1|] eqn:E; [| discriminate].
    apply (IH st1 st' Hrun); [| exact Hn].
    apply (step_accounted OS hosts st ev st1 E Ha).
    destruct (raised st1) as [e|] eqn:E1; [| reflexivity].
    rewrite (run_raised_sticky OS rest st1 st' e Hrun E1) in Hn.
    discriminate.
Qed.

Lemma init_accounted : forall hosts, accounted hosts (init hosts).
Proof.
  intros hosts. split; simpl.
  - rewrite app_nil_r. reflexivity.
  - constructor.
Qed.

(** What a returned list holds, whatever the hosts. *)
Lemma returned_is_permutation :
  forall OS hosts schedule st r,
    run OS (init hosts) schedule = Some st ->
    leave st = Some (Returned r) ->
    r = results st /\ Permutation hosts (map fst r).
Proof.
  intros OS hosts schedule st r Hrun Hleave.
  unfold leave in Hleave.
  destruct (raised st) eqn:Er.
  - destruct (_ && _); discriminate.
  - destruct (is_nil (unsubmitted st)) eqn:E1; [| discriminate].
    destruct (is_nil (queue st)) eqn:E2; [| discriminate].
    destruct (is_nil (running st)) eqn:E3; [| discriminate].
    destruct (is_nil (finished st)) eqn:E4; [| discriminate].
    simpl in Hleave. inversion Hleave; subst. split; [reflexivity |].
    destruct (run_accounted OS hosts schedule _ st Hrun
                (init_accounted hosts) Er) as [Hp _].
    rewrite (is_nil_true _ E1), (is_nil_true _ E2), (is_nil_true _ E3),
      (is_nil_true _ E4) in Hp.
    exact Hp.
Qed.

(** ** The sort of the table *)






Lemma mapM_ok :
  forall {A B} (f : A -> result B) (g : A -> B) l,
    (forall x, In x l -> f x = Ok (g x)) -> mapM f l = Ok (map g l).
Proof.
  intros A B f g l. induction l as [|x l IH]; simpl; intros H.
  - reflexivity.
  - rewrite (H x (or_introl eq_refl)). simpl.
    rewrite IH by (intros y Hy; apply H; right; exact Hy).
    reflexivity.
Qed.





Lemma step_table :
  forall OS st ev st',
    step OS st ev = Some st' ->
    update_table (results st) = Ok (rows st) ->
    raised st' = None ->
    update_table (results st') = Ok (rows st').
Proof.
  intros OS st ev st' Hstep Ht Hn.
  destruct ev as [| |k w|k|]; simpl in Hstep.
  - destruct (raised st); [discriminate |].
    destruct (unsubmitted st); [discriminate |].
    inversion Hstep; subst; exact Ht.
  - destruct (queue st); [discriminate |].
    destruct (_ <? _); [| discriminate].
    inversion Hstep; subst; exact Ht.
  - destruct (nth_error (running st) k); [| discriminate].
    inversion Hstep; subst; exact Ht.
  - destruct (raised st); [discriminate |].
    destruct (unsubmitted st); [| discriminate].
    destruct (nth_error (finished st) k) as [[h f]|]; [| discriminate].
    inversion Hstep; subst; clear Hstep.
    unfold loop_body in *. destruct f as [r|e]; [| discriminate Hn].
    simpl in *.
    destruct (update_table (results st ++ [r])) eqn:E; simpl in *;
      [exact E | discriminate Hn].
  - destruct (raised st); [discriminate |].
    inversion Hstep; subst. discriminate Hn.
Qed.

Lemma run_table :
  forall OS schedule st st',
    run OS st schedule = Some st' ->
    update_table (results st) = Ok (rows st) ->
    raised st' = None ->
    update_table (results st') = Ok (rows st').
Proof.
  intros OS schedule.
  induction schedule as [|ev rest IH]; intros st st' Hrun Ht Hn;
    simpl in Hrun.
  - inversion Hrun; subst. exact Ht.
  - destruct (step OS st ev) as [st1|] eqn:E; [| discriminate].
    apply (IH st1 st' Hrun); [| exact Hn].
    apply (step_table OS st ev st1 E Ht).
    destruct (raised st1) as [e|] eqn:E1; [| reflexivity].
    rewrite (run_raised_sticky OS rest st1 st' e Hrun E1) in Hn.
    discriminate.
Qed.


Lemma leave_returned_raised :
  forall st r, leave st = Some (Returned r) -> raised st = None.
Proof.
  intros st r H. unfold leave in H.
  destruct (raised st); [| reflexivity].
  destruct (_ && _); discriminate.
Qed.

(** ** What the caller of [sweep_network] gets *)

(** An outcome that arrives is put at the end of [results]. *)
Lemma yield_appends :
  forall OS st k st' h r,
    step OS st (Yield k) = Some st' ->
    nth_error (finished st) k = Some (h, Ok r) ->
    results st' = results st ++ [r].
Proof.
  intros OS st k st' h r Hstep Hk. simpl in Hstep. rewrite Hk in Hstep.
  destruct (raised st); [discriminate |].
  destruct (unsubmitted st); [| discriminate].
  inversion Hstep; subst. unfold loop_body. simpl.
  destruct (update_table _); reflexivity.
Qed.







(** ** Rejected range specifications *)

(** When [ip_network] raises [ValueError] the call exits with status 1 and
    nothing has been probed or recorded. *)
Lemma sweep_rejects_before_probing :
  forall OS subnet schedule e o st,
    ip_network subnet false = Raise e ->
    isinstance e ValueError = true ->
    sweep_network OS subnet schedule = Some (o, st) ->
    o = Exited 1 /\ schedule = [] /\ probed st = [] /\ results st = [].
Proof.
  intros OS subnet schedule e o st He Hv H. unfold sweep_network in H.
  rewrite He, Hv in H.
  destruct schedule; [| discriminate].
  inversion H; subst. repeat split.
Qed.

Lemma not_an_ip_is_rejected :
  sweep_network "linux" "not-an-ip" [] = Some (Exited 1, init []).
Proof. vm_compute. reflexivity. Qed.

(** C6, where the code departs from it: "::1/128" is not an IPv4 network,
    yet [ip_network] accepts it as an IPv6 one; the sweep probes "::1" and
    then fails with [AddressValueError] in [update_table], whose sort key
    is [IPv4Address]. *)
Theorem sweep_probes_ipv6_range :
  V4.IPv4Network_init "::1/128" false = Raise AddressValueError
  /\ option_map fst
       (sweep_network "linux" "::1/128"
          [Submit; Start; Finish 0 world_up; Yield 0])
     = Some (Raised AddressValueError)
  /\ option_map (fun x => (probed (snd x), results (snd x)))
       (sweep_network "linux" "::1/128"
          [Submit; Start; Finish 0 world_up; Yield 0])
     = Some (["::1"], [("::1", true)]).
Proof.
  split; [vm_compute; reflexivity |].
  split; vm_compute; reflexivity.
Qed.

(** ** Strings *)

Lemma split_not_nil : forall sep s, split sep s <> [].
Proof.
  intros sep s. destruct s as [|c s]; simpl; [discriminate |].
  destruct (Ascii.eqb c sep); [discriminate |].
  destruct (split sep s); discriminate.
Qed.

Lemma split_no_sep :
  forall sep s, contains sep s = false -> split sep s = [s].
Proof.
  intros sep s. induction s as [|c s IH]; simpl; intros H.
  - reflexivity.
  - apply orb_false_iff in H. destruct H as [Hc Hs].
    rewrite Hc, (IH Hs). reflexivity.
Qed.

Lemma split_app_sep :
  forall sep p rest,
    contains sep p = false ->
    split sep (p ++ String sep rest)%string = p :: split sep rest.
Proof.
  intros sep p rest. induction p as [|c p IH]; simpl; intros H.
  - rewrite Ascii.eqb_refl. reflexivity.
  - apply orb_false_iff in H. destruct H as [Hc Hs].
    rewrite Hc, (IH Hs). reflexivity.
Qed.

Lemma contains_app :
  forall c a b,
    contains c (a ++ b)%string = contains c a || contains c b.
Proof.
  intros c a b. induction a as [|d a IH]; simpl.
  - reflexivity.
  - rewrite IH, orb_assoc. reflexivity.
Qed.

Lemma join_cons2 :
  forall sep x y l,
    join (String sep "") (x :: y :: l)
    = (x ++ String sep (join (String sep "") (y :: l)))%string.
Proof. reflexivity. Qed.

Lemma split_join :
  forall sep l,
    l <> [] ->
    Forall (fun p => contains sep p = false) l ->
    split sep (join (String sep "") l) = l.
Proof.
  intros sep l. induction l as [|x l IH]; intros Hne Hall.
  - contradiction.
  - inversion Hall as [|? ? Hx Hl]; subst.
    destruct l as [|y l].
    + simpl. apply split_no_sep. exact Hx.
    + rewrite join_cons2, (split_app_sep _ _ _ Hx).
      rewrite IH; [reflexivity | discriminate | exact Hl].
Qed.

Lemma contains_join :
  forall c sep l,
    Ascii.eqb sep c = false ->
    Forall (fun p => contains c p = false) l ->
    contains c (join (String sep "") l) = false.
Proof.
  intros c sep l Hsep. induction l as [|x l IH]; intros Hall.
  - reflexivity.
  - inversion Hall as [|? ? Hx Hl]; subst.
    destruct l as [|y l].
    + exact Hx.
    + rewrite join_cons2, contains_app, Hx. simpl.
      rewrite Hsep. exact (IH Hl).
Qed.

Lemma contains_split :
  forall c sep s,
    Ascii.eqb c sep = false ->
    contains c s = true ->
    exists p, In p (split sep s) /\ contains c p = true.
Proof.
  intros c sep s Hne. induction s as [|d s IH]; simpl; intros H.
  - discriminate.
  - destruct (Ascii.eqb d sep) eqn:Ed.
    + apply Ascii.eqb_eq in Ed. subst d.
      rewrite Ascii.eqb_sym, Hne in H. simpl in H.
      destruct (IH H) as (p & Hp & Hc). exists p. split; [right |]; assumption.
    + destruct (Ascii.eqb d c) eqn:Edc; simpl in H.
      * destruct (split sep s) as [|q qs]; eexists;
          (split; [left; reflexivity |]);
          simpl; rewrite Edc; reflexivity.
      * destruct (IH H) as (p & Hp & Hc).
        destruct (split sep s) as [|q qs]; [destruct Hp |].
        destruct Hp as [-> | Hp].
        -- exists (String d p). split; [left; reflexivity |].
           simpl. rewrite Hc. apply orb_true_r.
        -- exists p. split; [right; exact Hp | exact Hc].
Qed.

(** ** Numbers *)

Lemma range_In : forall a b x, In x (range a b) <-> a <= x < b.
Proof.
  intros a b x. unfold range. rewrite in_map_iff. split.
  - intros (i & <- & Hi). apply in_seq in Hi. lia.
  - intros H. exists (Z.to_nat (x - a)). split; [lia |].
    apply in_seq. lia.
Qed.

Lemma range_length :
  forall a b, Z.of_nat (List.length (range a b)) = Z.max 0 (b - a).
Proof.
  intros a b. unfold range. rewrite length_map, length_seq. lia.
Qed.


Lemma range_forallb :
  forall (P : Z -> bool) a b,
    forallb P (range a b) = true -> forall x, a <= x < b -> P x = true.
Proof.
  intros P a b H x Hx. rewrite forallb_forall in H.
  apply H. apply range_In. exact Hx.
Qed.

Lemma octets_ok : forallb octet_ok (range 0 256) = true.
Proof. vm_compute. reflexivity. Qed.

Lemma octet_roundtrip :
  forall n,
    0 <= n < 256 ->
    V4._parse_octet (str_of_int n) = Ok n
    /\ contains "." (str_of_int n) = false
    /\ contains "/" (str_of_int n) = false
    /\ str_of_int n <> "".
Proof.
  intros n Hn. pose proof (range_forallb _ _ _ octets_ok n Hn) as H.
  unfold octet_ok in H.
  apply andb_true_iff in H. destruct H as [H H4].
  apply andb_true_iff in H. destruct H as [H H3].
  apply andb_true_iff in H. destruct H as [H1 H2].
  repeat split.
  - destruct (V4._parse_octet (str_of_int n)) as [m|e]; [| discriminate].
    apply Z.eqb_eq in H1. subst m. reflexivity.
  - apply negb_true_iff. exact H2.
  - apply negb_true_iff. exact H3.
  - apply negb_true_iff in H4. apply String.eqb_neq. exact H4.
Qed.

Lemma to_bytes_octets :
  forall k n, Forall (fun b => 0 <= b < 256) (to_bytes k n).
Proof.
  intros k. induction k as [|k IH]; intros n; simpl.
  - constructor.
  - apply Forall_app. split; [apply IH |].
    constructor; [| constructor].
    apply Z.mod_pos_bound. lia.
Qed.

Lemma to_bytes_length : forall k n, List.length (to_bytes k n) = k.
Proof.
  intros k. induction k as [|k IH]; intros n; simpl.
  - reflexivity.
  - rewrite length_app, IH. simpl. lia.
Qed.

Lemma from_bytes_to_bytes :
  forall n, 0 <= n < 2 ^ 32 -> from_bytes (to_bytes 4 n) = n.
Proof.
  intros n Hn. unfold from_bytes.
  cbn [to_bytes app fold_left].
  change (2 ^ 32) with 4294967296 in Hn.
  Z.div_mod_to_equations. lia.
Qed.

Lemma from_bytes_bound :
  forall a b c d,
    0 <= a < 256 -> 0 <= b < 256 -> 0 <= c < 256 -> 0 <= d < 256 ->
    0 <= from_bytes [a; b; c; d] < 2 ^ 32.
Proof.
  intros a b c d Ha Hb Hc Hd. unfold from_bytes.
  cbn [fold_left].
  change (2 ^ 32) with 4294967296. lia.
Qed.

Lemma mapM_length :
  forall {A B} (f : A -> result B) l l',
    mapM f l = Ok l' -> List.length l' = List.length l.
Proof.
  intros A B f l. induction l as [|x l IH]; simpl; intros l' H.
  - inversion H; reflexivity.
  - destruct (f x) as [y|e]; [| discriminate]. simpl in H.
    destruct (mapM f l) as [ys|e]; [| discriminate]. simpl in H.
    inversion H; subst. simpl. rewrite (IH ys eq_refl). reflexivity.
Qed.

Lemma mapM_Forall :
  forall {A B} (f : A -> result B) (P : B -> Prop) l l',
    (forall x y, In x l -> f x = Ok y -> P y) ->
    mapM f l = Ok l' -> Forall P l'.
Proof.
  intros A B f P l. induction l as [|x l IH]; simpl; intros l' HP H.
  - inversion H; constructor.
  - destruct (f x) as [y|e] eqn:E; [| discriminate]. simpl in H.
    destruct (mapM f l) as [ys|e]; [| discriminate]. simpl in H.
    inversion H; subst. constructor.
    + exact (HP x y (or_introl eq_refl) E).
    + apply IH; [| reflexivity].
      intros x0 y0 Hin. apply HP. right. exact Hin.
Qed.

Lemma mapM_map_ok :
  forall {A B} (f : A -> result B) (g : B -> A) l,
    Forall (fun y => f (g y) = Ok y) l -> mapM f (map g l) = Ok l.
Proof.
  intros A B f g l. induction l as [|y l IH]; simpl; intros H.
  - reflexivity.
  - inversion H as [|? ? Hy Hl]; subst.
    rewrite Hy. simpl. rewrite (IH Hl). reflexivity.
Qed.

Lemma digit_value_range :
  forall c d, digit_value c = Some d -> 0 <= d < 16.
Proof.
  intros c d. unfold digit_value.
  destruct ((48 <=? code c) && (code c <=? 57)) eqn:E1.
  - intros H; inversion H; subst. lia.
  - destruct ((97 <=? code c) && (code c <=? 102)) eqn:E2.
    + intros H; inversion H; subst. lia.
    + destruct ((65 <=? code c) && (code c <=? 70)) eqn:E3.
      * intros H; inversion H; subst. lia.
      * discriminate.
Qed.

Lemma digits_value_nonneg :
  forall base s acc n,
    0 <= base -> 0 <= acc -> digits_value base acc s = Some n -> 0 <= n.
Proof.
  intros base s. induction s as [|c s IH]; simpl; intros acc n Hb Ha H.
  - inversion H; subst. exact Ha.
  - destruct (digit_value c) as [d|] eqn:Ed; [| discriminate].
    destruct (d <? base); [| discriminate].
    apply digit_value_range in Ed.
    apply (IH (base * acc + d) n Hb); [nia | exact H].
Qed.

Lemma int_of_string_nonneg :
  forall s base n, 0 <= base -> int_of_string s base = Ok n -> 0 <= n.
Proof.
  intros s base n Hb H. unfold int_of_string in H.
  destruct s as [|c s]; [discriminate |].
  destruct ((base =? 10) && _); [discriminate |].
  destruct (digits_value base 0 (String c s)) as [m|] eqn:E;
    [| discriminate].
  inversion H; subst.
  apply (digits_value_nonneg base (String c s) 0 n Hb); [lia | exact E].
Qed.

Lemma parse_octet_range :
  forall s n, V4._parse_octet s = Ok n -> 0 <= n < 256.
Proof.
  intros s n H. unfold V4._parse_octet in H.
  destruct s as [|c s]; [discriminate |].
  destruct (negb _); [discriminate |].
  destruct (3 <? _); [discriminate |].
  destruct (_ && _); [discriminate |].
  destruct (int_of_string (String c s) 10) as [m|e] eqn:E;
    [| discriminate].
  simpl in H. destruct (255 <? m) eqn:E2; [discriminate |].
  inversion H; subst. apply Z.ltb_ge in E2.
  apply int_of_string_nonneg in E; lia.
Qed.

(** ** IPv4 addresses *)

Lemma ip_int_from_string_eq :
  forall s,
    s <> "" ->
    V4._ip_int_from_string s
    = let octets := split "." s in
      if negb (Z.of_nat (List.length octets) =? 4)
      then Raise AddressValueError
      else try_except
             (bytes <- mapM V4._parse_octet octets ;; Ok (from_bytes bytes))
             ValueError (fun _ => Raise AddressValueError).
Proof.
  intros s Hs. destruct s; [contradiction | reflexivity].
Qed.

Lemma join_not_empty :
  forall sep x l, x <> "" -> join sep (x :: l) <> "".
Proof.
  intros sep x l Hx. destruct l as [|y l]; simpl; [exact Hx |].
  destruct x; [contradiction | discriminate].
Qed.

(** Parsing the text of an address gives the address back. *)
Lemma IPv4Address_roundtrip :
  forall n,
    0 <= n < 2 ^ 32 -> V4.IPv4Address (V4._string_from_ip_int n) = Ok n.
Proof.
  intros n Hn. unfold V4.IPv4Address, V4._string_from_ip_int.
  pose proof (to_bytes_octets 4 n) as Hb.
  pose proof (to_bytes_length 4 n) as Hlen.
  pose proof (from_bytes_to_bytes n Hn) as Hfb.
  set (bytes := to_bytes 4 n) in *.
  assert (Hslash :
    contains "/" (join "." (map str_of_int bytes)) = false).
  { apply contains_join; [reflexivity |].
    apply Forall_map. apply (Forall_impl _ (P := fun b => 0 <= b < 256));
      [| exact Hb].
    intros b Hb0. apply (octet_roundtrip b Hb0). }
  rewrite Hslash.
  assert (Hne : join "." (map str_of_int bytes) <> "").
  { destruct bytes as [|b0 bs]; [discriminate Hlen |].
    simpl map. apply join_not_empty.
    inversion Hb; subst. apply (octet_roundtrip b0). assumption. }
  rewrite (ip_int_from_string_eq _ Hne). cbv zeta.
  rewrite split_join.
  - rewrite length_map, Hlen. simpl negb. cbv iota.
    rewrite mapM_map_ok.
    + simpl. rewrite Hfb. reflexivity.
    + apply (Forall_impl _ (P := fun b => 0 <= b < 256)); [| exact Hb].
      intros b Hb0. apply (octet_roundtrip b Hb0).
  - destruct bytes; [discriminate Hlen | discriminate].
  - apply Forall_map. apply (Forall_impl _ (P := fun b => 0 <= b < 256));
      [| exact Hb].
    intros b Hb0. apply (octet_roundtrip b Hb0).
Qed.

Lemma ip_int_from_string_range :
  forall s n, V4._ip_int_from_string s = Ok n -> 0 <= n < 2 ^ 32.
Proof.
  intros s n H.
  destruct (String.eqb s "") eqn:Es.
  - apply String.eqb_eq in Es. subst s. discriminate H.
  - apply String.eqb_neq in Es.
    rewrite (ip_int_from_string_eq s Es) in H. cbv zeta in H.
    destruct (Z.of_nat (List.length (split "." s)) =? 4) eqn:El;
      [| discriminate].
    simpl in H.
    destruct (mapM V4._parse_octet (split "." s)) as [bytes|e] eqn:Em.
    + simpl in H. inversion H; subst; clear H.
      pose proof (mapM_length _ _ _ Em) as Hlen.
      apply Z.eqb_eq in El.
      assert (Hb : Forall (fun b => 0 <= b < 256) bytes).
      { apply (mapM_Forall _ _ _ _ (fun x y _ => parse_octet_range x y) Em). }
      destruct bytes as [|a [|b [|c [|d [|? ?]]]]]; simpl in Hlen;
        try lia.
      inversion Hb as [|? ? Ha Hb1]; subst.
      inversion Hb1 as [|? ? Hb' Hb2]; subst.
      inversion Hb2 as [|? ? Hc Hb3]; subst.
      inversion Hb3 as [|? ? Hd _]; subst.
      apply from_bytes_bound; assumption.
    + simpl in H. destruct (isinstance e ValueError); discriminate.
Qed.

Lemma IPv4Address_range :
  forall s n, V4.IPv4Address s = Ok n -> 0 <= n < 2 ^ 32.
Proof.
  intros s n H. unfold V4.IPv4Address in H.
  destruct (contains "/" s); [discriminate |].
  exact (ip_int_from_string_range s n H).
Qed.


(** ** IPv4 netmasks *)

Lemma prefixes_ok : forallb prefix_ok (range 0 33) = true.
Proof. vm_compute. reflexivity. Qed.

Lemma prefix_facts :
  forall p,
    0 <= p <= 32 ->
    let nm := _ip_int_from_prefix V4._max_prefixlen p in
    let hm := Z.lxor nm V4._ALL_ONES in
    hm = 2 ^ (32 - p) - 1 /\ Z.land nm hm = 0
    /\ Z.lor nm hm = V4._ALL_ONES /\ 0 <= nm <= V4._ALL_ONES.
Proof.
  intros p Hp.
  assert (H : prefix_ok p = true)
    by (apply (range_forallb _ _ _ prefixes_ok); lia).
  unfold prefix_ok in H. cbv zeta in *.
  apply andb_true_iff in H. destruct H as [H H5].
  apply andb_true_iff in H. destruct H as [H H4].
  apply andb_true_iff in H. destruct H as [H H3].
  apply andb_true_iff in H. destruct H as [H1 H2].
  apply Z.eqb_eq in H1, H2, H3. apply Z.leb_le in H4, H5.
  repeat split; assumption.
Qed.

Lemma bit_length_nonneg : forall n, 0 <= bit_length n.
Proof.
  intros n. unfold bit_length. destruct (n =? 0); [lia |].
  pose proof (Z.log2_nonneg (Z.abs n)). lia.
Qed.

Lemma prefix_from_ip_int_range :
  forall m x p, 0 <= m -> _prefix_from_ip_int m x = Ok p -> 0 <= p <= m.
Proof.
  intros m x p Hm H. unfold _prefix_from_ip_int in H. cbv zeta in H.
  destruct (negb _); [discriminate |]. inversion H; subst; clear H.
  unfold _count_righthand_zero_bits.
  destruct (x =? 0); [lia |].
  pose proof (bit_length_nonneg (Z.land (Z.lnot x) (x - 1))). lia.
Qed.

Lemma prefix_from_prefix_string_range :
  forall m s p, _prefix_from_prefix_string m s = Ok p -> 0 <= p <= m.
Proof.
  intros m s p H. unfold _prefix_from_prefix_string in H.
  destruct (negb _); [discriminate |].
  destruct (int_of_string s 10) as [n|e]; simpl in H.
  - destruct ((0 <=? n) && (n <=? m)) eqn:E; simpl in H; [| discriminate].
    inversion H; subst. apply andb_true_iff in E. lia.
  - destruct (isinstance e ValueError); discriminate.
Qed.

Lemma prefix_from_ip_string_range :
  forall m f s p,
    0 <= m -> _prefix_from_ip_string m f s = Ok p -> 0 <= p <= m.
Proof.
  intros m f s p Hm H. unfold _prefix_from_ip_string in H.
  destruct (f s) as [x|e]; simpl in H.
  - destruct (_prefix_from_ip_int m x) as [q|e] eqn:E1.
    + inversion H; subst. exact (prefix_from_ip_int_range m x p Hm E1).
    + destruct (isinstance e ValueError); [| discriminate].
      destruct (_prefix_from_ip_int m (Z.lxor x (_ALL_ONES m)))
        as [q|e2] eqn:E2; simpl in H.
      * inversion H; subst.
        exact (prefix_from_ip_int_range m _ p Hm E2).
      * destruct (isinstance e2 ValueError); discriminate.
  - destruct (isinstance e AddressValueError); discriminate.
Qed.

Lemma IPv4Address_of_int_spec :
  forall x y,
    V4.IPv4Address_of_int x = Ok y -> y = x /\ 0 <= x <= V4._ALL_ONES.
Proof.
  intros x y H. unfold V4.IPv4Address_of_int, _check_int_address in H.
  destruct (x <? 0) eqn:E1; [discriminate |].
  fold V4._ALL_ONES in H.
  destruct (V4._ALL_ONES <? x) eqn:E2; [discriminate |].
  simpl in H. inversion H; subst.
  apply Z.ltb_ge in E1, E2. lia.
Qed.

Lemma IPv4Address_of_int_ok :
  forall x, 0 <= x <= V4._ALL_ONES -> V4.IPv4Address_of_int x = Ok x.
Proof.
  intros x Hx. unfold V4.IPv4Address_of_int, _check_int_address.
  fold V4._ALL_ONES.
  destruct (x <? 0) eqn:E1; [apply Z.ltb_lt in E1; lia |].
  destruct (V4._ALL_ONES <? x) eqn:E2; [apply Z.ltb_lt in E2; lia |].
  reflexivity.
Qed.

Lemma make_netmask_spec :
  forall mask nm p,
    V4._make_netmask mask = Ok (nm, p) ->
    0 <= p <= 32 /\ nm = _ip_int_from_prefix V4._max_prefixlen p.
Proof.
  intros mask nm p H. unfold V4._make_netmask in H.
  match type of H with
  | bind ?r _ = _ => destruct r as [q|e] eqn:Eq; [| discriminate]
  end.
  simpl in H.
  destruct (V4.IPv4Address_of_int _) as [y|e] eqn:Ey; [| discriminate].
  simpl in H. inversion H; subst; clear H.
  apply IPv4Address_of_int_spec in Ey. destruct Ey as [-> _].
  split; [| reflexivity].
  change 32 with V4._max_prefixlen.
  assert (H0 : 0 <= V4._max_prefixlen)
    by (unfold V4._max_prefixlen, IPV4LENGTH; lia).
  destruct mask as [n|s].
  - destruct ((0 <=? n) && (n <=? V4._max_prefixlen)) eqn:E; simpl in Eq;
      [| discriminate].
    inversion Eq; subst. apply andb_true_iff in E. lia.
  - unfold try_except in Eq.
    destruct (_prefix_from_prefix_string V4._max_prefixlen s) as [q|e]
      eqn:E1.
    + inversion Eq; subst.
      exact (prefix_from_prefix_string_range _ _ _ E1).
    + destruct (isinstance e NetmaskValueError); [| discriminate].
      exact (prefix_from_ip_string_range _ _ _ _ H0 Eq).
Qed.

(** The block of a prefix length around an address. *)
Lemma block_facts :
  forall a p,
    0 <= a < 2 ^ 32 -> 0 <= p <= 32 ->
    let nm := _ip_int_from_prefix V4._max_prefixlen p in
    let hm := Z.lxor nm V4._ALL_ONES in
    let net := Z.land a nm in
    let bc := Z.lor net hm in
    net = a - a mod 2 ^ (32 - p)
    /\ bc = net + 2 ^ (32 - p) - 1
    /\ 0 <= net <= a /\ a <= bc <= V4._ALL_ONES.
Proof.
  intros a p Ha Hp nm hm net bc.
  destruct (prefix_facts p Hp) as (Hhm & Hdisj & Hall & Hnm).
  fold nm in Hhm, Hdisj, Hall, Hnm. fold hm in Hhm, Hdisj, Hall.
  assert (Hk : 0 <= 32 - p) by lia.
  assert (Hones : hm = Z.ones (32 - p))
    by (rewrite Z.ones_equiv; lia).
  assert (Hlow : Z.land a hm = a mod 2 ^ (32 - p))
    by (rewrite Hones; apply Z.land_ones; exact Hk).
  assert (Hfull : Z.land a V4._ALL_ONES = a).
  { change V4._ALL_ONES with (Z.ones 32).
    rewrite Z.land_ones by lia. apply Z.mod_small. exact Ha. }
  assert (Hd : Z.land net (Z.land a hm) = 0).
  { unfold net. apply Z.bits_inj'. intros i Hi.
    rewrite !Z.land_spec, Z.bits_0.
    assert (Hb : Z.testbit (Z.land nm hm) i = false)
      by (rewrite Hdisj; apply Z.bits_0).
    rewrite Z.land_spec in Hb.
    destruct (Z.testbit a i), (Z.testbit nm i), (Z.testbit hm i);
      simpl in *; congruence. }
  assert (Hor : Z.lor net (Z.land a hm) = a).
  { unfold net. rewrite <- Z.land_lor_distr_r, Hall. exact Hfull. }
  assert (Hsplit : a = net + Z.land a hm).
  { pose proof (Z.add_lor_land net (Z.land a hm)). lia. }
  assert (Hnet0 : Z.land net hm = 0).
  { unfold net. rewrite <- Z.land_assoc, Hdisj. apply Z.land_0_r. }
  assert (Hbc : bc = net + hm).
  { unfold bc. rewrite <- Z.add_lor_land, Hnet0. lia. }
  assert (Hpow : 0 < 2 ^ (32 - p)) by (apply Z.pow_pos_nonneg; lia).
  pose proof (Z.mod_pos_bound a (2 ^ (32 - p)) Hpow) as Hmod.
  assert (Hnet : net = a - a mod 2 ^ (32 - p)) by lia.
  assert (Hmul : net = 2 ^ (32 - p) * (a / 2 ^ (32 - p))).
  { rewrite Hnet. pose proof (Z.div_mod a (2 ^ (32 - p))). lia. }
  assert (H32 : 2 ^ 32 = 2 ^ (32 - p) * 2 ^ p).
  { rewrite <- Z.pow_add_r by lia. f_equal. lia. }
  assert (Hq : a / 2 ^ (32 - p) < 2 ^ p).
  { apply Z.div_lt_upper_bound; [exact Hpow |]. lia. }
  assert (Htop : net + 2 ^ (32 - p) <= 2 ^ 32).
  { rewrite Hmul, H32. nia. }
  assert (Hall1 : V4._ALL_ONES = 2 ^ 32 - 1) by reflexivity.
  pose proof (Z.mod_le a (2 ^ (32 - p)) (proj1 Ha) Hpow) as Hmle.
  repeat split; lia.
Qed.

(** ** IPv4 networks *)

Lemma ip_network_v4 :
  forall s strict net,
    ip_network s strict = Ok (Net4 net) ->
    V4.IPv4Network_init s strict = Ok net.
Proof.
  intros s strict net H. unfold ip_network in H.
  destruct (V4.IPv4Network_init s strict) as [n|e].
  - inversion H; reflexivity.
  - destruct (_ || _); [| discriminate].
    destruct (V6.IPv6Network_init s strict) as [n|e2]; [discriminate |].
    destruct (_ || _); discriminate.
Qed.

Lemma ip_network_of_v4 :
  forall s strict net,
    V4.IPv4Network_init s strict = Ok net ->
    ip_network s strict = Ok (Net4 net).
Proof.
  intros s strict net H. unfold ip_network. rewrite H. reflexivity.
Qed.

(** What [IPv4Network(s, strict=False)] is made of. *)
Lemma IPv4Network_init_spec :
  forall s net,
    V4.IPv4Network_init s false = Ok net ->
    exists addr mask a p,
      _split_addr_prefix V4._max_prefixlen s = Ok (addr, mask)
      /\ V4.IPv4Address addr = Ok a
      /\ V4._make_netmask mask
         = Ok (_ip_int_from_prefix V4._max_prefixlen p, p)
      /\ 0 <= p <= 32 /\ 0 <= a < 2 ^ 32
      /\ V4.network_address net
         = Z.land a (_ip_int_from_prefix V4._max_prefixlen p)
      /\ V4.netmask net = _ip_int_from_prefix V4._max_prefixlen p
      /\ V4._prefixlen net = p
      /\ V4.hosts_of net
         = (if p =? 31 then HostsIter
            else if p =? 32 then HostsSingle addr else HostsMethod).
Proof.
  intros s net H. unfold V4.IPv4Network_init in H.
  destruct (_split_addr_prefix V4._max_prefixlen s) as [[addr mask]|e]
    eqn:Es; [| discriminate].
  simpl in H.
  destruct (V4.IPv4Address addr) as [a|e] eqn:Ea; [| discriminate].
  simpl in H.
  destruct (V4._make_netmask mask) as [[nm p]|e] eqn:Em; [| discriminate].
  simpl in H.
  destruct (make_netmask_spec _ _ _ Em) as [Hp ->].
  pose proof (IPv4Address_range _ _ Ea) as Ha.
  exists addr, mask, a, p.
  set (nm := _ip_int_from_prefix V4._max_prefixlen p) in *.
  match type of H with
  | bind ?r _ = _ => destruct r as [x|e] eqn:Ex; [| discriminate]
  end.
  simpl in H.
  assert (Hx : x = Z.land a nm).
  { destruct (Z.land a nm =? a) eqn:E; simpl in Ex.
    - inversion Ex; subst. apply Z.eqb_eq in E. symmetry. exact E.
    - apply IPv4Address_of_int_spec in Ex. tauto. }
  subst x.
  inversion H; subst; clear H. simpl.
  repeat split; try assumption; try lia.
Qed.

Lemma mapM_of_int_range :
  forall x y,
    0 <= x -> y <= V4._ALL_ONES + 1 ->
    mapM V4.IPv4Address_of_int (range x y) = Ok (range x y).
Proof.
  intros x y Hx Hy.
  rewrite (mapM_ok _ (fun z => z)).
  - rewrite map_id. reflexivity.
  - intros z Hz. apply range_In in Hz.
    apply IPv4Address_of_int_ok. lia.
Qed.

Lemma range_two : forall x, range x (x + 2) = [x; x + 1].
Proof.
  intros x. unfold range.
  replace (x + 2 - x) with 2 by lia. simpl.
  rewrite Z.add_0_r. reflexivity.
Qed.

(** The addresses [hosts()] yields, by prefix length. *)
Lemma network_facts :
  forall s net,
    V4.IPv4Network_init s false = Ok net ->
    let p := V4._prefixlen net in
    let na := V4.network_address net in
    let bc := V4.broadcast_address net in
    0 <= p <= 32 /\ 0 <= na /\ bc <= V4._ALL_ONES
    /\ bc = na + 2 ^ (32 - p) - 1
    /\ V4.hosts net
       = Ok (if p =? 31 then [na; bc]
             else if p =? 32 then [na] else range (na + 1) bc).
Proof.
  intros s net H.
  destruct (IPv4Network_init_spec s net H)
    as (addr & mask & a & p & Hs & Ha & Hm & Hp & Hra & Hna & Hnm & Hpl & Hh).
  cbv zeta.
  destruct (block_facts a p Hra Hp) as (Hnet & Hbc & Hnet_le & Hbc_le).
  cbv zeta in Hnet, Hbc, Hnet_le, Hbc_le.
  assert (Hb : V4.broadcast_address net
               = V4.network_address net + 2 ^ (32 - p) - 1).
  { unfold V4.broadcast_address, V4.hostmask. rewrite Hna, Hnm. exact Hbc. }
  assert (Hble : V4.broadcast_address net <= V4._ALL_ONES).
  { unfold V4.broadcast_address, V4.hostmask. rewrite Hna, Hnm. lia. }
  assert (Hna0 : 0 <= V4.network_address net) by (rewrite Hna; lia).
  rewrite Hpl. clear Hpl.
  split; [exact Hp |]. split; [exact Hna0 |]. split; [exact Hble |].
  split; [exact Hb |].
  unfold V4.hosts. rewrite Hh.
  set (na := V4.network_address net) in *.
  destruct (p =? 31) eqn:E31.
  - apply Z.eqb_eq in E31. subst p.
    change (2 ^ (32 - 31)) with 2 in Hb.
    assert (Hb1 : V4.broadcast_address net = na + 1) by lia.
    unfold V4.iter. fold na. rewrite Hb1.
    replace (na + 1 + 1) with (na + 2) by lia.
    rewrite mapM_of_int_range; [| exact Hna0 | lia].
    rewrite range_two. reflexivity.
  - destruct (p =? 32) eqn:E32.
    + apply Z.eqb_eq in E32. subst p.
      rewrite Ha. simpl. do 3 f_equal.
      change (2 ^ (32 - 32)) with 1 in Hnet. rewrite Z.mod_1_r in Hnet.
      lia.
    + fold na. rewrite mapM_of_int_range; [reflexivity | lia | lia].
Qed.

Lemma host_strings_v4 :
  forall net l,
    V4.hosts net = Ok l ->
    host_strings (Net4 net) = Ok (map V4._string_from_ip_int l).
Proof.
  intros net l H. unfold host_strings. simpl. rewrite H. simpl.
  rewrite (mapM_ok _ (fun a => match a with
                               | Addr4 ip => V4._string_from_ip_int ip
                               | Addr6 _ => ""
                               end)).
  - rewrite map_map. reflexivity.
  - intros x Hx. apply in_map_iff in Hx. destruct Hx as (ip & <- & _).
    reflexivity.
Qed.

(** ** The addresses of a range *)

(** C4: for every IPv4 range with a prefix length of at most 30, the
    enumeration returns exactly N addresses, N being the number of
    addresses of the range less two (at least 2, so the clause N >= 1
    always holds): every address strictly between the network address and
    the broadcast address, and neither of these two. *)
Theorem hosts_exclude_network_and_broadcast :
  forall (subnet : string) (net : V4.IPv4Network),
    ip_network subnet false = Ok (Net4 net) ->
    V4._prefixlen net <= 30 ->
    exists l,
      V4.hosts net = Ok l
      /\ host_strings (Net4 net) = Ok (map V4._string_from_ip_int l)
      /\ V4.num_addresses net = 2 ^ (32 - V4._prefixlen net)
      /\ Z.of_nat (List.length l) = V4.num_addresses net - 2
      /\ 1 <= V4.num_addresses net - 2
      /\ ~ In (V4.network_address net) l
      /\ ~ In (V4.broadcast_address net) l
      /\ (forall x,
             In x l <->
             V4.network_address net < x < V4.broadcast_address net).
Proof.
  intros subnet net Hnet Hp.
  apply ip_network_v4 in Hnet.
  destruct (network_facts subnet net Hnet) as (Hp0 & Hna & Hbc & Hb & Hh).
  assert (E31 : (V4._prefixlen net =? 31) = false) by (apply Z.eqb_neq; lia).
  assert (E32 : (V4._prefixlen net =? 32) = false) by (apply Z.eqb_neq; lia).
  rewrite E31, E32 in Hh.
  assert (Hpow : 2 ^ 2 <= 2 ^ (32 - V4._prefixlen net))
    by (apply Z.pow_le_mono_r; lia).
  change (2 ^ 2) with 4 in Hpow.
  exists (range (V4.network_address net + 1) (V4.broadcast_address net)).
  split; [exact Hh |].
  split; [exact (host_strings_v4 net _ Hh) |].
  unfold V4.num_addresses.
  split; [lia |].
  split; [rewrite range_length; lia |].
  split; [lia |].
  split; [rewrite range_In; lia |].
  split; [rewrite range_In; lia |].
  intros x. rewrite range_In. lia.
Qed.

Lemma hosts_exclude_network_and_broadcast_slash30 :
  exists net l,
    ip_network "192.168.1.0/30" false = Ok (Net4 net)
    /\ V4._prefixlen net <= 30
    /\ host_strings (Net4 net) = Ok (map V4._string_from_ip_int l)
    /\ map V4._string_from_ip_int l = ["192.168.1.1"; "192.168.1.2"].
Proof.
  eexists.
  assert (Hnet : ip_network "192.168.1.0/30" false
                 = Ok (Net4 {| V4.network_address := 3232235776;
                               V4.netmask := 4294967292;
                               V4._prefixlen := 30;
                               V4.hosts_of := HostsMethod |}))
    by (vm_compute; reflexivity).
  assert (Hp : V4._prefixlen {| V4.network_address := 3232235776;
                                V4.netmask := 4294967292;
                                V4._prefixlen := 30;
                                V4.hosts_of := HostsMethod |} <= 30)
    by (simpl; lia).
  destruct (hosts_exclude_network_and_broadcast _ _ Hnet Hp)
    as (l & Hl & Hs & _).
  exists l. split; [exact Hnet |]. split; [exact Hp |].
  split; [exact Hs |].
  vm_compute in Hl. inversion Hl; subst. vm_compute. reflexivity.
Defined.

(** C3, as the code has it: a /32 range yields exactly one address, the
    address itself, and a /31 range yields exactly two, its network address
    and its broadcast address; nothing is excluded in either case. *)
Theorem single_host_and_point_to_point_ranges :
  forall (subnet : string) (net : V4.IPv4Network),
    ip_network subnet false = Ok (Net4 net) ->
    (V4._prefixlen net = 32 ->
     V4.hosts net = Ok [V4.network_address net]
     /\ V4.broadcast_address net = V4.network_address net
     /\ host_strings (Net4 net)
        = Ok [V4._string_from_ip_int (V4.network_address net)])
    /\ (V4._prefixlen net = 31 ->
        V4.hosts net
        = Ok [V4.network_address net; V4.broadcast_address net]
        /\ V4.broadcast_address net = V4.network_address net + 1
        /\ host_strings (Net4 net)
           = Ok [V4._string_from_ip_int (V4.network_address net);
                 V4._string_from_ip_int (V4.broadcast_address net)]).
Proof.
  intros subnet net Hnet.
  apply ip_network_v4 in Hnet.
  destruct (network_facts subnet net Hnet) as (Hp0 & Hna & Hbc & Hb & Hh).
  split; intros Hp; rewrite Hp in Hh, Hb; simpl in Hh.
  - split; [exact Hh |].
    split; [change (2 ^ (32 - 32)) with 1 in Hb; lia |].
    exact (host_strings_v4 net _ Hh).
  - split; [exact Hh |].
    split; [change (2 ^ (32 - 31)) with 2 in Hb; lia |].
    exact (host_strings_v4 net _ Hh).
Qed.

Lemma single_host_and_point_to_point_ranges_slash32 :
  exists net,
    ip_network "10.0.0.5/32" false = Ok (Net4 net)
    /\ V4._prefixlen net = 32
    /\ host_strings (Net4 net)
       = Ok [V4._string_from_ip_int (V4.network_address net)]
    /\ V4._string_from_ip_int (V4.network_address net) = "10.0.0.5".
Proof.
  eexists.
  assert (Hnet : ip_network "10.0.0.5/32" false
                 = Ok (Net4 {| V4.network_address := 167772165;
                               V4.netmask := 4294967295;
                               V4._prefixlen := 32;
                               V4.hosts_of := HostsSingle "10.0.0.5" |}))
    by (vm_compute; reflexivity).
  split; [exact Hnet |]. split; [reflexivity |].
  split; [| vm_compute; reflexivity].
  apply (proj1 (single_host_and_point_to_point_ranges _ _ Hnet)).
  reflexivity.
Defined.

(** C3 as stated fails for /31: the range 10.0.0.4/31 yields the two
    addresses 10.0.0.4 and 10.0.0.5. *)
Lemma slash31_yields_two_addresses :
  match ip_network "10.0.0.4/31" false with
  | Ok (Net4 net) =>
      V4._prefixlen net = 31
      /\ host_strings (Net4 net) = Ok ["10.0.0.4"; "10.0.0.5"]
  | _ => False
  end
  /\ List.length ["10.0.0.4"; "10.0.0.5"] <> 1%nat.
Proof.
  split; [| discriminate].
  vm_compute. split; reflexivity.
Qed.

(** ** Range specifications with host bits set *)

Lemma prefix_strs_ok : forallb prefix_str_ok (range 0 33) = true.
Proof. vm_compute. reflexivity. Qed.

Lemma prefix_str_roundtrip :
  forall p,
    0 <= p <= 32 ->
    _prefix_from_prefix_string V4._max_prefixlen (str_of_int p) = Ok p.
Proof.
  intros p Hp.
  assert (H : prefix_str_ok p = true)
    by (apply (range_forallb _ _ _ prefix_strs_ok); lia).
  unfold prefix_str_ok in H.
  destruct (_prefix_from_prefix_string _ _) as [q|e]; [| discriminate].
  apply Z.eqb_eq in H. subst q. reflexivity.
Qed.

Lemma string_from_ip_int_no_slash :
  forall n,
    0 <= n < 2 ^ 32 -> contains "/" (V4._string_from_ip_int n) = false.
Proof.
  intros n Hn. pose proof (IPv4Address_roundtrip n Hn) as H.
  unfold V4.IPv4Address in H.
  destruct (contains "/" (V4._string_from_ip_int n));
    [discriminate | reflexivity].
Qed.

Lemma split_addr_prefix_canonical :
  forall na p,
    0 <= na < 2 ^ 32 -> 0 <= p <= 32 ->
    _split_addr_prefix V4._max_prefixlen
      (V4._string_from_ip_int na ++ "/" ++ str_of_int p)%string
    = Ok (V4._string_from_ip_int na, MaskStr (str_of_int p)).
Proof.
  intros na p Hna Hp.
  unfold _split_addr_prefix, _split_optional_netmask.
  change ("/" ++ str_of_int p)%string with (String "/" (str_of_int p)).
  rewrite (split_app_sep _ _ _ (string_from_ip_int_no_slash na Hna)).
  rewrite split_no_sep by (apply (octet_roundtrip p); lia).
  reflexivity.
Qed.

Lemma land_netmask_idem :
  forall a nm, Z.land (Z.land a nm) nm = Z.land a nm.
Proof.
  intros a nm. rewrite <- Z.land_assoc, Z.land_diag. reflexivity.
Qed.

(** The text of a network is read back, strictly, as that network. *)
Lemma IPv4Network_init_canonical :
  forall na p strict,
    0 <= na < 2 ^ 32 -> 0 <= p <= 32 ->
    Z.land na (_ip_int_from_prefix V4._max_prefixlen p) = na ->
    V4.IPv4Network_init
      (V4._string_from_ip_int na ++ "/" ++ str_of_int p)%string strict
    = Ok {| V4.network_address := na;
            V4.netmask := _ip_int_from_prefix V4._max_prefixlen p;
            V4._prefixlen := p;
            V4.hosts_of :=
              if p =? 31 then HostsIter
              else if p =? 32
                   then HostsSingle (V4._string_from_ip_int na)
                   else HostsMethod |}.
Proof.
  intros na p strict Hna Hp Hland.
  unfold V4.IPv4Network_init.
  rewrite (split_addr_prefix_canonical na p Hna Hp). simpl bind.
  rewrite (IPv4Address_roundtrip na Hna). simpl bind.
  unfold V4._make_netmask, try_except.
  rewrite (prefix_str_roundtrip p Hp). simpl bind.
  destruct (prefix_facts p Hp) as (_ & _ & _ & Hnm).
  rewrite (IPv4Address_of_int_ok _ Hnm). simpl bind.
  rewrite Hland, Z.eqb_refl. simpl negb. cbv iota. simpl bind.
  reflexivity.
Qed.



(** ** The hosts of a sweep are distinct *)


Lemma mapM_In_ok :
  forall {A B} (f : A -> result B) l l' x,
    mapM f l = Ok l' -> In x l -> exists y, f x = Ok y.
Proof.
  intros A B f l. induction l as [|a l IH]; simpl; intros l' x H Hin.
  - destruct Hin.
  - destruct (f a) as [y|e] eqn:E; [| discriminate]. simpl in H.
    destruct (mapM f l) as [ys|e]; [| discriminate].
    destruct Hin as [<- | Hin].
    + exists y. exact E.
    + exact (IH ys x eq_refl Hin).
Qed.

Lemma all_digits_no_colon :
  forall s, all_chars is_digit_char s = true -> contains ":" s = false.
Proof.
  intros s. induction s as [|c s IH]; simpl; intros H.
  - reflexivity.
  - apply andb_true_iff in H. destruct H as [Hc Hs].
    rewrite (IH Hs), orb_false_r.
    destruct (Ascii.eqb c ":") eqn:E; [| reflexivity].
    apply Ascii.eqb_eq in E. subst c. discriminate Hc.
Qed.

Lemma parse_octet_no_colon :
  forall s n, V4._parse_octet s = Ok n -> contains ":" s = false.
Proof.
  intros s n H. unfold V4._parse_octet in H.
  destruct s as [|c s]; [discriminate |].
  destruct (isascii (String c s) && isdigit (String c s)) eqn:E;
    [| discriminate].
  apply andb_true_iff in E. destruct E as [_ E].
  apply all_digits_no_colon. exact E.
Qed.

(** No text with a colon is an IPv4 address. *)
Lemma IPv4Address_no_colon :
  forall s n, V4.IPv4Address s = Ok n -> contains ":" s = false.
Proof.
  intros s n H. unfold V4.IPv4Address in H.
  destruct (contains "/" s); [discriminate |].
  destruct (String.eqb s "") eqn:Es.
  { apply String.eqb_eq in Es. subst s. reflexivity. }
  apply String.eqb_neq in Es.
  rewrite (ip_int_from_string_eq s Es) in H. cbv zeta in H.
  destruct (negb _); [discriminate |].
  destruct (mapM V4._parse_octet (split "." s)) as [bytes|e] eqn:Em.
  - destruct (contains ":" s) eqn:Ec; [| reflexivity].
    destruct (contains_split ":" "." s eq_refl Ec) as (p & Hp & Hc).
    destruct (mapM_In_ok _ _ _ _ Em Hp) as (y & Hy).
    rewrite (parse_octet_no_colon p y Hy) in Hc. discriminate.
  - simpl in H. destruct (isinstance e ValueError); discriminate.
Qed.

Lemma join_contains_sep :
  forall sep l,
    (2 <= List.length l)%nat -> contains sep (join (String sep "") l) = true.
Proof.
  intros sep l H. destruct l as [|x [|y l]]; simpl in H; try lia.
  rewrite join_cons2, contains_app. simpl.
  rewrite Ascii.eqb_refl. apply orb_true_r.
Qed.

Lemma fold_left_invariant :
  forall {A B} (P : A -> Prop) (Q : B -> Prop) (f : A -> B -> A) l a,
    (forall a b, P a -> Q b -> P (f a b)) ->
    Forall Q l -> P a -> P (fold_left f l a).
Proof.
  intros A B P Q f l. induction l as [|b l IH]; simpl; intros a Hf Hl Ha.
  - exact Ha.
  - inversion Hl; subst. apply IH; [exact Hf | assumption |].
    apply Hf; assumption.
Qed.

Lemma enumerate_indices :
  forall l, Forall (fun ih => 0 <= fst ih) (enumerate l).
Proof.
  intros l. apply Forall_forall. intros [i h] Hin. simpl.
  apply in_combine_l in Hin. apply range_In in Hin. lia.
Qed.

(** The start of the best run of zeros is an index once the run has a
    length. *)
Lemma compress_best_start :
  forall hextets bs bl s d,
    fold_left V6.compress_step (enumerate hextets) (-1, 0, -1, 0)
    = (bs, bl, s, d) ->
    0 < bl -> 0 <= bs.
Proof.
  intros hextets bs bl s d H.
  pose proof (fold_left_invariant
                (fun st : Z * Z * Z * Z =>
                   let '(bs, bl, s, d) := st in
                   (s = -1 \/ 0 <= s) /\ (0 < bl -> 0 <= bs))
                (fun ih : Z * string => 0 <= fst ih)
                V6.compress_step (enumerate hextets) (-1, 0, -1, 0)) as Hinv.
  rewrite H in Hinv. apply Hinv.
  - clear. intros [[[bs bl] s] d] [i h] [Hs Hb] Hi. simpl in Hi.
    unfold V6.compress_step.
    destruct (String.eqb h "0").
    + destruct (s =? -1) eqn:E.
      * destruct (bl <? d + 1); split; try (right; exact Hi); auto.
      * apply Z.eqb_neq in E.
        assert (0 <= s) by (destruct Hs; [contradiction | assumption]).
        destruct (bl <? d + 1); split; auto.
    + split; [left; reflexivity | exact Hb].
  - apply enumerate_indices.
  - split; [left; reflexivity | lia].
Qed.

Lemma compress_hextets_length :
  forall hextets,
    (2 <= List.length hextets)%nat ->
    (2 <= List.length (V6._compress_hextets hextets))%nat.
Proof.
  intros hextets Hlen. unfold V6._compress_hextets.
  destruct (fold_left V6.compress_step (enumerate hextets) (-1, 0, -1, 0))
    as [[[bs bl] s] d] eqn:E.
  destruct (1 <? bl) eqn:E1; [| exact Hlen].
  apply Z.ltb_lt in E1.
  pose proof (compress_best_start _ _ _ _ _ E ltac:(lia)) as Hbs.
  set (h' := if bs + bl =? Z.of_nat (List.length hextets)
             then hextets ++ [""] else hextets).
  assert (Hlen' : (2 <= List.length h')%nat).
  { unfold h'. destruct (_ =? _); [rewrite length_app; simpl |]; lia. }
  destruct (bs =? 0) eqn:E0.
  - simpl. rewrite length_app. simpl. lia.
  - apply Z.eqb_neq in E0.
    rewrite !length_app, length_firstn. simpl. lia.
Qed.

Lemma v6_string_has_colon :
  forall ip s, V6._string_from_ip_int ip = Ok s -> contains ":" s = true.
Proof.
  intros ip s H. unfold V6._string_from_ip_int in H.
  destruct (V6._ALL_ONES <? ip); [discriminate |].
  cbv zeta in H.
  match type of H with
  | bind ?r _ = _ => destruct r as [hextets|e] eqn:Em; [| discriminate]
  end.
  simpl in H. inversion H; subst; clear H.
  apply join_contains_sep. apply compress_hextets_length.
  rewrite (mapM_length _ _ _ Em). simpl. lia.
Qed.

Lemma v6_str_has_colon :
  forall a s, V6.str a = Ok s -> contains ":" s = true.
Proof.
  intros a s H. unfold V6.str in H.
  destruct (V6._string_from_ip_int (V6._ip a)) as [ip_str|e] eqn:E;
    [| discriminate].
  simpl in H. apply v6_string_has_colon in E.
  destruct (V6._scope_id a) as [[|c sc]|]; inversion H; subst;
    try exact E.
  rewrite contains_app, E. reflexivity.
Qed.

Lemma v6_host_strings_have_colon :
  forall n hosts,
    host_strings (Net6 n) = Ok hosts ->
    Forall (fun h => contains ":" h = true) hosts.
Proof.
  intros n hosts H. unfold host_strings in H. simpl in H.
  destruct (V6.hosts n) as [l|e]; [| discriminate]. simpl in H.
  apply (mapM_Forall ipaddress.str _ (map Addr6 l) hosts); [| exact H].
  intros x y Hin Hx. apply in_map_iff in Hin.
  destruct Hin as (a & <- & _). exact (v6_str_has_colon a y Hx).
Qed.

Lemma sorted_keys_ok :
  forall {A} (key : A -> result Z) l l' x,
    sorted l key = Ok l' -> In x l -> exists k, key x = Ok k.
Proof.
  intros A key l l' x H Hin. unfold sorted in H.
  destruct (mapM _ l) as [keyed|e] eqn:E; [| discriminate].
  destruct (mapM_In_ok _ _ _ _ E Hin) as (y & Hy).
  destruct (key x) as [k|e]; [| discriminate].
  exists k. reflexivity.
Qed.

Lemma update_table_keys_ok :
  forall results rows x,
    update_table results = Ok rows -> In x results ->
    exists k, V4.IPv4Address (fst x) = Ok k.
Proof.
  intros results rows x H Hin. unfold update_table in H.
  destruct (sorted results _) as [l|e] eqn:E; [| discriminate].
  exact (sorted_keys_ok _ _ _ _ E Hin).
Qed.



(** ** Every sweep of an IPv4 range can run to completion *)









(** ** Invariants of a sweep *)

Lemma run_invariant :
  forall OS (P : pool -> Prop),
    (forall st ev st', step OS st ev = Some st' -> P st -> P st') ->
    forall schedule st st',
      run OS st schedule = Some st' -> P st -> P st'.
Proof.
  intros OS P Hstep schedule.
  induction schedule as [|ev rest IH]; intros st st' Hrun HP;
    simpl in Hrun.
  - inversion Hrun; subst. exact HP.
  - destruct (step OS st ev) as [st1|] eqn:E; [| discriminate].
    exact (IH st1 st' Hrun (Hstep st ev st1 E HP)).
Qed.

Lemma remove_nth_length :
  forall {A} (l : list A) k x,
    nth_error l k = Some x ->
    S (List.length (remove_nth k l)) = List.length l.
Proof.
  intros A l k x H.
  destruct (remove_nth_split l k x H) as (l1 & l2 & -> & ->).
  rewrite !length_app. simpl. lia.
Qed.

Lemma loop_body_results_length :
  forall st f,
    (List.length (results (loop_body st f))
     <= S (List.length (results st)))%nat.
Proof.
  intros st f. unfold loop_body. destruct f as [r|e]; simpl; [| lia].
  destruct (update_table _); simpl; rewrite length_app; simpl; lia.
Qed.

Lemma loop_body_other_fields :
  forall st f,
    unsubmitted (loop_body st f) = unsubmitted st
    /\ queue (loop_body st f) = queue st
    /\ running (loop_body st f) = running st
    /\ finished (loop_body st f) = finished st
    /\ probed (loop_body st f) = probed st.
Proof.
  intros st f. unfold loop_body. destruct f as [r|e]; simpl.
  - destruct (update_table _); simpl; repeat split.
  - repeat split.
Qed.




Lemma step_in_hand :
  forall OS st ev st',
    step OS st ev = Some st' -> (in_hand st' <= in_hand st)%nat.
Proof.
  intros OS st ev st' Hstep. unfold in_hand.
  destruct ev as [| |k w|k|]; simpl in Hstep.
  - destruct (raised st); [discriminate |].
    destruct (unsubmitted st) eqn:Eu; [discriminate |].
    inversion Hstep; subst; simpl. rewrite length_app. simpl. lia.
  - destruct (queue st) eqn:Eq; [discriminate |].
    destruct (_ <? _); [| discriminate].
    inversion Hstep; subst; simpl. rewrite length_app. simpl. lia.
  - destruct (nth_error (running st) k) eqn:E; [| discriminate].
    pose proof (remove_nth_length _ _ _ E).
    inversion Hstep; subst; simpl. rewrite length_app. simpl. lia.
  - destruct (raised st); [discriminate |].
    destruct (unsubmitted st) eqn:Eu; [| discriminate].
    destruct (nth_error (finished st) k) as [[h f]|] eqn:E;
      [| discriminate].
    pose proof (remove_nth_length _ _ _ E).
    inversion Hstep; subst.
    match goal with
    | |- context [loop_body ?s f] =>
        destruct (loop_body_other_fields s f) as (-> & -> & -> & -> & _);
        pose proof (loop_body_results_length s f)
    end.
    simpl in *. lia.
  - destruct (raised st); [discriminate |].
    inversion Hstep; subst; simpl. lia.
Qed.

(** X4: at no moment of a sweep, returned from or not, are there more
    recorded outcomes than enumerated hosts. *)
Theorem outcomes_never_exceed_hosts :
  forall (OS : string) (hosts : list string) (schedule : list event)
         (st : pool),
    run OS (init hosts) schedule = Some st ->
    (List.length (results st) <= List.length hosts)%nat.
Proof.
  intros OS hosts schedule st Hrun.
  assert (H : (in_hand st <= List.length hosts)%nat).
  { apply (run_invariant OS
             (fun st => (in_hand st <= List.length hosts)%nat))
      with (2 := Hrun).
    - intros s ev s' Hstep Hs.
      pose proof (step_in_hand OS s ev s' Hstep). lia.
    - unfold in_hand. simpl. lia. }
  unfold in_hand in H. lia.
Qed.

Lemma outcomes_never_exceed_hosts_ipv6 :
  exists st,
    run "linux" (init ["::1"]) [Submit; Start; Finish 0 world_up; Yield 0]
    = Some st
    /\ raised st = Some AddressValueError
    /\ (List.length (results st) <= 1)%nat.
Proof.
  eexists. split; [vm_compute; reflexivity |].
  split; [reflexivity |].
  apply (outcomes_never_exceed_hosts "linux" ["::1"]
           [Submit; Start; Finish 0 world_up; Yield 0]).
  vm_compute. reflexivity.
Defined.





Lemma remove_nth_In :
  forall {A} (l : list A) k x, In x (remove_nth k l) -> In x l.
Proof.
  intros A l. induction l as [|a l IH]; intros k x H.
  - unfold remove_nth in H. destruct k; simpl in H; destruct H.
  - destruct k as [|k].
    + right. exact H.
    + unfold remove_nth in *. simpl in H. destruct H as [<- | H].
      * left. reflexivity.
      * right. exact (IH k x H).
Qed.

Lemma ping_alive :
  forall OS w h x,
    ping OS w h = Ok x -> snd x = true ->
    open_devnull w = Ok tt
    /\ subprocess_run w (build_ping_cmd OS h) = Ok 0.
Proof.
  intros OS w h x H Ha. unfold ping, try_except, bind in H.
  destruct (open_devnull w) as [[]|e].
  - destruct (subprocess_run w (build_ping_cmd OS h)) as [rc|e].
    + inversion H; subst. simpl in Ha. apply Z.eqb_eq in Ha. subst rc.
      split; reflexivity.
    + destruct (isinstance e Exception); inversion H; subst;
        discriminate Ha.
  - destruct (isinstance e Exception); inversion H; subst; discriminate Ha.
Qed.

Lemma step_from_ping :
  forall OS all st ev st',
    In ev all -> step OS st ev = Some st' ->
    from_ping OS all st -> from_ping OS all st'.
Proof.
  intros OS all st ev st' Hin Hstep [Hf Hr].
  destruct ev as [| |k w|k|]; simpl in Hstep.
  - destruct (raised st); [discriminate |].
    destruct (unsubmitted st); [discriminate |].
    inversion Hstep; subst; split; assumption.
  - destruct (queue st); [discriminate |].
    destruct (_ <? _); [| discriminate].
    inversion Hstep; subst; split; assumption.
  - destruct (nth_error (running st) k) as [h|]; [| discriminate].
    inversion Hstep; subst; split; simpl; [| exact Hr].
    intros h0 f Hin0. apply in_app_or in Hin0.
    destruct Hin0 as [Hin0 | [Heq | []]].
    + exact (Hf h0 f Hin0).
    + inversion Heq; subst. exists k, w. split; [exact Hin | reflexivity].
  - destruct (raised st); [discriminate |].
    destruct (unsubmitted st); [| discriminate].
    destruct (nth_error (finished st) k) as [[h f]|] eqn:E;
      [| discriminate].
    inversion Hstep; subst; clear Hstep.
    destruct (Hf h f (nth_error_In _ _ E)) as (k0 & w0 & Hk0 & Hf0).
    match goal with
    | |- from_ping _ _ (loop_body ?s f) =>
        destruct (loop_body_other_fields s f) as (_ & _ & _ & Hfin & _)
    end.
    split.
    + rewrite Hfin. simpl. intros h1 f1 H1.
      exact (Hf h1 f1 (remove_nth_In _ _ _ H1)).
    + unfold loop_body. destruct f as [r|e]; simpl; [| exact Hr].
      assert (Hnew : forall x, In x (results st ++ [r]) ->
                exists k w, In (Finish k w) all
                            /\ ping OS w (fst x) = Ok x).
      { intros x Hx. apply in_app_or in Hx.
        destruct Hx as [Hx | [<- | []]]; [exact (Hr x Hx) |].
        exists k0, w0. split; [exact Hk0 |].
        symmetry in Hf0. rewrite (ping_host OS w0 h r Hf0). exact Hf0. }
      destruct (update_table _); simpl; exact Hnew.
  - destruct (raised st); [discriminate |].
    inversion Hstep; subst; split; assumption.
Qed.

Lemma run_from_ping :
  forall OS all schedule st st',
    incl schedule all -> run OS st schedule = Some st' ->
    from_ping OS all st -> from_ping OS all st'.
Proof.
  intros OS all schedule.
  induction schedule as [|ev rest IH]; intros st st' Hincl Hrun HP;
    simpl in Hrun.
  - inversion Hrun; subst. exact HP.
  - destruct (step OS st ev) as [st1|] eqn:E; [| discriminate].
    apply (IH st1 st'); [| exact Hrun |].
    + intros x Hx. apply Hincl. right. exact Hx.
    + apply (step_from_ping OS all st ev st1); [| exact E | exact HP].
      apply Hincl. left. reflexivity.
Qed.

(** X7: no outcome is made up: each recorded outcome [(host, alive)] is what
    [ping] returned for that host under an answer of the system given during
    the sweep, and an outcome says alive only if the command for that host
    ran and exited with status 0. *)
Theorem outcomes_come_from_ping :
  forall (OS : string) (hosts : list string) (schedule : list event)
         (st : pool) (x : string * bool),
    run OS (init hosts) schedule = Some st ->
    In x (results st) ->
    exists k w,
      In (Finish k w) schedule
      /\ ping OS w (fst x) = Ok x
      /\ (snd x = true ->
          subprocess_run w (build_ping_cmd OS (fst x)) = Ok 0).
Proof.
  intros OS hosts schedule st x Hrun Hx.
  assert (H : from_ping OS schedule st).
  { apply (run_from_ping OS schedule schedule (init hosts) st);
      [apply incl_refl | exact Hrun |].
    split; intros ? ; simpl; intros; contradiction. }
  destruct (proj2 H x Hx) as (k & w & Hk & Hp).
  exists k, w. split; [exact Hk |]. split; [exact Hp |].
  intros Ha. exact (proj2 (ping_alive OS w (fst x) x Hp Ha)).
Qed.

Lemma outcomes_come_from_ping_one_host :
  exists st k w,
    run "linux" (init ["10.0.0.1"]) [Submit; Start; Finish 0 world_up; Yield 0]
    = Some st
    /\ In ("10.0.0.1", true) (results st)
    /\ In (Finish k w) [Submit; Start; Finish 0 world_up; Yield 0]
    /\ ping "linux" w "10.0.0.1" = Ok ("10.0.0.1", true).
Proof.
  assert (Hrun : run "linux" (init ["10.0.0.1"])
                   [Submit; Start; Finish 0 world_up; Yield 0]
                 = Some {| unsubmitted := []; queue := []; running := [];
                           finished := [];
                           results := [("10.0.0.1", true)]; advanced := 1;
                           rows := [("10.0.0.1", UP)];
                           probed := ["10.0.0.1"]; raised := None |})
    by (vm_compute; reflexivity).
  assert (Hin : In ("10.0.0.1", true)
                  (results {| unsubmitted := []; queue := [];
                              running := []; finished := [];
                              results := [("10.0.0.1", true)];
                              advanced := 1;
                              rows := [("10.0.0.1", UP)];
                              probed := ["10.0.0.1"]; raised := None |}))
    by (left; reflexivity).
  destruct (outcomes_come_from_ping _ _ _ _ _ Hrun Hin)
    as (k & w & Hk & Hp & _).
  eexists. exists k, w.
  split; [exact Hrun |]. split; [exact Hin |]. split; [exact Hk |].
  exact Hp.
Defined.

(** ** Sweeps of IPv6 ranges *)

Lemma ip_network_v6 :
  forall s strict n,
    ip_network s strict = Ok (Net6 n) ->
    V6.IPv6Network_init s strict = Ok n.
Proof.
  intros s strict n H. unfold ip_network in H.
  destruct (V4.IPv4Network_init s strict) as [n4|e]; [discriminate |].
  destruct (_ || _); [| discriminate].
  destruct (V6.IPv6Network_init s strict) as [n6|e2].
  - inversion H; reflexivity.
  - destruct (_ || _); discriminate.
Qed.

Lemma prefixes6_ok : forallb prefix6_ok (range 0 129) = true.
Proof. vm_compute. reflexivity. Qed.

Lemma prefix6_facts :
  forall p,
    0 <= p <= 128 ->
    let nm := _ip_int_from_prefix V6._max_prefixlen p in
    let hm := Z.lxor nm V6._ALL_ONES in
    Z.land nm hm = 0 /\ hm = 2 ^ (128 - p) - 1.
Proof.
  intros p Hp.
  assert (H : prefix6_ok p = true)
    by (apply (range_forallb _ _ _ prefixes6_ok); lia).
  unfold prefix6_ok in H. cbv zeta in *.
  apply andb_true_iff in H. destruct H as [H1 H2].
  apply Z.eqb_eq in H1, H2. split; assumption.
Qed.

Lemma IPv6Address_of_int_spec :
  forall x a, V6.IPv6Address_of_int x = Ok a -> V6._ip a = x.
Proof.
  intros x a H. unfold V6.IPv6Address_of_int in H.
  destruct (_check_int_address V6._max_prefixlen x); [| discriminate].
  simpl in H. inversion H; reflexivity.
Qed.

Lemma v6_make_netmask_spec :
  forall mask nm p,
    V6._make_netmask mask = Ok (nm, p) ->
    0 <= p <= 128 /\ nm = _ip_int_from_prefix V6._max_prefixlen p.
Proof.
  intros mask nm p H. unfold V6._make_netmask in H.
  match type of H with
  | bind ?r _ = _ => destruct r as [q|e] eqn:Eq; [| discriminate]
  end.
  simpl in H.
  destruct (V6.IPv6Address_of_int _) as [y|e] eqn:Ey; [| discriminate].
  simpl in H. inversion H; subst; clear H.
  apply IPv6Address_of_int_spec in Ey.
  split; [| exact Ey].
  change 128 with V6._max_prefixlen.
  destruct mask as [n|s].
  - destruct ((0 <=? n) && (n <=? V6._max_prefixlen)) eqn:E; simpl in Eq;
      [| discriminate].
    inversion Eq; subst. apply andb_true_iff in E. lia.
  - exact (prefix_from_prefix_string_range _ _ _ Eq).
Qed.

(** What [IPv6Network(s, strict=False)] is made of. *)
Lemma IPv6Network_init_spec :
  forall s n,
    V6.IPv6Network_init s false = Ok n ->
    exists addr p,
      0 <= p <= 128
      /\ V6.netmask n = _ip_int_from_prefix V6._max_prefixlen p
      /\ Z.land (V6._ip (V6.network_address n)) (V6.netmask n)
         = V6._ip (V6.network_address n)
      /\ V6.hosts_of n
         = (if p =? 127 then HostsIter
            else if p =? 128 then HostsSingle addr else HostsMethod).
Proof.
  intros s n H. unfold V6.IPv6Network_init in H.
  destruct (_split_addr_prefix V6._max_prefixlen s) as [[addr mask]|e];
    [| discriminate].
  simpl in H.
  destruct (V6.IPv6Address_init addr) as [a|e]; [| discriminate].
  simpl in H.
  destruct (V6._make_netmask mask) as [[nm p]|e] eqn:Em; [| discriminate].
  simpl in H.
  destruct (v6_make_netmask_spec _ _ _ Em) as [Hp ->].
  set (nm := _ip_int_from_prefix V6._max_prefixlen p) in *.
  match type of H with
  | bind ?r _ = _ => destruct r as [x|e] eqn:Ex; [| discriminate]
  end.
  simpl in H.
  assert (Hx : Z.land (V6._ip x) nm = V6._ip x).
  { destruct (Z.land (V6._ip a) nm =? V6._ip a) eqn:E; simpl in Ex.
    - inversion Ex; subst. apply Z.eqb_eq. exact E.
    - apply IPv6Address_of_int_spec in Ex. rewrite Ex.
      apply land_netmask_idem. }
  inversion H; subst; clear H. simpl.
  exists addr, p. repeat split; try assumption; lia.
Qed.

Lemma v6_hosts_not_empty :
  forall s n l,
    V6.IPv6Network_init s false = Ok n -> V6.hosts n = Ok l -> l <> [].
Proof.
  intros s n l Hn Hl.
  destruct (IPv6Network_init_spec s n Hn) as (addr & p & Hp & Hnm & Hna & Hh).
  destruct (prefix6_facts p Hp) as [Hdisj Hhm]. cbv zeta in Hdisj, Hhm.
  rewrite <- Hnm in Hdisj, Hhm.
  assert (Hb : V6.broadcast_address n
               = V6._ip (V6.network_address n) + (2 ^ (128 - p) - 1)).
  { unfold V6.broadcast_address, V6.hostmask.
    assert (H0 : Z.land (V6._ip (V6.network_address n))
                   (Z.lxor (V6.netmask n) V6._ALL_ONES) = 0).
    { rewrite <- Hna, <- Z.land_assoc, Hdisj. apply Z.land_0_r. }
    pose proof (Z.add_lor_land (V6._ip (V6.network_address n))
                  (Z.lxor (V6.netmask n) V6._ALL_ONES)) as Hadd.
    lia. }
  assert (Hnz : forall x y l0,
             x < y -> mapM V6.IPv6Address_of_int (range x y) = Ok l0 ->
             l0 <> []).
  { intros x y l0 Hxy Hm Hnil. subst l0.
    apply mapM_length in Hm. simpl in Hm.
    pose proof (range_length x y). lia. }
  unfold V6.hosts in Hl. rewrite Hh in Hl.
  destruct (p =? 127) eqn:E127.
  - apply Z.eqb_eq in E127. subst p.
    change (2 ^ (128 - 127) - 1) with 1 in Hb.
    unfold V6.iter in Hl. eapply Hnz; [| exact Hl]. lia.
  - destruct (p =? 128) eqn:E128.
    + destruct (V6.IPv6Address_init addr); [| discriminate].
      simpl in Hl. inversion Hl; subst. discriminate.
    + apply Z.eqb_neq in E127, E128.
      assert (Hpow : 2 ^ 2 <= 2 ^ (128 - p))
        by (apply Z.pow_le_mono_r; lia).
      change (2 ^ 2) with 4 in Hpow.
      eapply Hnz; [| exact Hl]. lia.
Qed.

(** X8: no sweep of an IPv6 range returns a list: whatever the range and the
    run of the threads, a call of [sweep_network] that [ip_network] lets
    through as IPv6 ends by an exception. *)
Theorem ipv6_sweep_never_returns :
  forall (OS subnet : string) (n : V6.IPv6Network)
         (schedule : list event) (o : outcome) (st : pool),
    ip_network subnet false = Ok (Net6 n) ->
    sweep_network OS subnet schedule = Some (o, st) ->
    exists e, o = Raised e.
Proof.
  intros OS subnet n schedule o st Hn H.
  unfold sweep_network in H. rewrite Hn in H.
  destruct (host_strings (Net6 n)) as [hosts|e] eqn:Eh.
  - destruct (run OS (init hosts) schedule) as [st1|] eqn:Er;
      [| discriminate].
    destruct (leave st1) as [o1|] eqn:El; [| discriminate].
    inversion H; subst o1 st1; clear H.
    destruct o as [r|e|code].
    + exfalso.
      destruct (returned_is_permutation _ _ _ _ _ Er El) as [Hr Hp].
      destruct r as [|x r'].
      * apply Permutation_sym, Permutation_nil in Hp. subst hosts.
        unfold host_strings in Eh. simpl in Eh.
        destruct (V6.hosts n) as [l|e] eqn:Ehl; [| discriminate].
        simpl in Eh. apply mapM_length in Eh. rewrite length_map in Eh.
        destruct l; [| discriminate Eh].
        exact (v6_hosts_not_empty subnet n [] (ip_network_v6 _ _ _ Hn) Ehl
                 eq_refl).
      * assert (Ht : update_table (results st) = Ok (rows st)).
        { apply (run_table OS schedule (init hosts) st Er);
            [reflexivity |].
          exact (leave_returned_raised st _ El). }
        rewrite <- Hr in Ht.
        destruct (update_table_keys_ok _ _ x Ht (or_introl eq_refl))
          as (k & Hk).
        apply IPv4Address_no_colon in Hk.
        pose proof (v6_host_strings_have_colon n hosts Eh) as Hc.
        rewrite Forall_forall in Hc.
        rewrite (Hc (fst x)) in Hk; [discriminate |].
        apply (Permutation_in _ (Permutation_sym Hp)). left. reflexivity.
    + exists e. reflexivity.
    + unfold leave in El.
      destruct (raised st); destruct (_ && _); discriminate.
  - destruct schedule; [| discriminate].
    inversion H; subst. exists e. reflexivity.
Qed.

Lemma ipv6_sweep_never_returns_db8 :
  exists n o st,
    ip_network "2001:db8::/126" false = Ok (Net6 n)
    /\ sweep_network "linux" "2001:db8::/126"
         [Submit; Submit; Submit; Start; Start; Start; Finish 0 world_up;
          Finish 0 world_up; Finish 0 world_up; Yield 0]
       = Some (o, st)
    /\ o = Raised AddressValueError.
Proof.
  assert (Hn : exists n, ip_network "2001:db8::/126" false = Ok (Net6 n))
    by (eexists; vm_compute; reflexivity).
  destruct Hn as (n & Hn).
  assert (Hs : exists st,
             sweep_network "linux" "2001:db8::/126"
               [Submit; Submit; Submit; Start; Start; Start; Finish 0 world_up;
          Finish 0 world_up; Finish 0 world_up; Yield 0]
             = Some (Raised AddressValueError, st))
    by (eexists; vm_compute; reflexivity).
  destruct Hs as (st & Hs).
  exists n, (Raised AddressValueError), st.
  split; [exact Hn |]. split; [exact Hs |].
  destruct (ipv6_sweep_never_returns _ _ _ _ _ _ Hn Hs) as (e & He).
  reflexivity.
Defined.

(** ** More on the enumeration of IPv4 hosts *)

(** X9: a range specification that is the text of an IPv4 address, without a
    prefix, is swept as that single address. *)
Theorem bare_address_is_a_single_host :
  forall (subnet : string) (a : Z),
    V4.IPv4Address subnet = Ok a ->
    exists net,
      ip_network subnet false = Ok (Net4 net)
      /\ V4._prefixlen net = 32
      /\ V4.network_address net = a
      /\ host_strings (Net4 net) = Ok [V4._string_from_ip_int a].
Proof.
  intros subnet a Ha.
  pose proof (IPv4Address_range _ _ Ha) as Hra.
  assert (Hslash : contains "/" subnet = false).
  { unfold V4.IPv4Address in Ha.
    destruct (contains "/" subnet); [discriminate | reflexivity]. }
  assert (Hland : Z.land a 4294967295 = a).
  { change 4294967295 with (Z.ones 32).
    rewrite Z.land_ones by lia. apply Z.mod_small. exact Hra. }
  set (net := {| V4.network_address := a; V4.netmask := 4294967295;
                 V4._prefixlen := 32;
                 V4.hosts_of := HostsSingle subnet |}).
  assert (Hinit : V4.IPv4Network_init subnet false = Ok net).
  { unfold V4.IPv4Network_init, _split_addr_prefix, _split_optional_netmask.
    rewrite (split_no_sep _ _ Hslash). simpl bind.
    rewrite Ha. simpl bind.
    change (V4._make_netmask (MaskInt V4._max_prefixlen))
      with (Ok (4294967295, 32)).
    simpl bind.
    change (_ip_int_from_prefix V4._max_prefixlen V4._max_prefixlen)
      with 4294967295.
    rewrite Hland, Z.eqb_refl. reflexivity. }
  exists net. split; [exact (ip_network_of_v4 _ _ _ Hinit) |].
  split; [reflexivity |]. split; [reflexivity |].
  apply (host_strings_v4 net [a]).
  unfold V4.hosts. simpl. rewrite Ha. reflexivity.
Qed.

Lemma bare_address_is_a_single_host_10_0_0_5 :
  exists net,
    V4.IPv4Address "10.0.0.5" = Ok 167772165
    /\ ip_network "10.0.0.5" false = Ok (Net4 net)
    /\ host_strings (Net4 net) = Ok ["10.0.0.5"].
Proof.
  assert (Ha : V4.IPv4Address "10.0.0.5" = Ok 167772165)
    by (vm_compute; reflexivity).
  destruct (bare_address_is_a_single_host _ _ Ha) as (net & Hn & _ & _ & Hh).
  exists net. split; [exact Ha |]. split; [exact Hn |].
  rewrite Hh. vm_compute. reflexivity.
Defined.

(** X10: the text of the network of an accepted range is itself accepted,
    even strictly, and denotes the same network with the same hosts:
    normalizing a range specification changes nothing of the sweep. *)
Theorem network_text_roundtrip :
  forall (subnet : string) (net : V4.IPv4Network),
    ip_network subnet false = Ok (Net4 net) ->
    exists net',
      ip_network (V4.str net) true = Ok (Net4 net')
      /\ V4.network_address net' = V4.network_address net
      /\ V4.netmask net' = V4.netmask net
      /\ V4._prefixlen net' = V4._prefixlen net
      /\ host_strings (Net4 net') = host_strings (Net4 net).
Proof.
  intros subnet net Hn. apply ip_network_v4 in Hn.
  destruct (IPv4Network_init_spec subnet net Hn)
    as (addr & mask & a & p & _ & _ & _ & Hp & Hra & Hna & Hnm & Hpl & _).
  destruct (block_facts a p Hra Hp) as (_ & _ & Hle & _). cbv zeta in Hle.
  rewrite <- Hna in Hle.
  assert (Hr : 0 <= V4.network_address net < 2 ^ 32) by lia.
  assert (Hidem : Z.land (V4.network_address net)
                    (_ip_int_from_prefix V4._max_prefixlen p)
                  = V4.network_address net).
  { rewrite Hna. apply land_netmask_idem. }
  pose proof (IPv4Network_init_canonical _ p true Hr Hp Hidem) as Ht.
  pose proof (IPv4Network_init_canonical _ p false Hr Hp Hidem) as Hf.
  unfold V4.str. rewrite Hpl.
  eexists. split; [exact (ip_network_of_v4 _ _ _ Ht) |].
  split; [reflexivity |]. split; [simpl; symmetry; exact Hnm |].
  split; [reflexivity |].
  destruct (network_facts _ _ Hf) as (_ & _ & _ & _ & Hh').
  destruct (network_facts _ _ Hn) as (_ & _ & _ & _ & Hh).
  rewrite (host_strings_v4 _ _ Hh'), (host_strings_v4 _ _ Hh).
  unfold V4.broadcast_address, V4.hostmask. simpl.
  rewrite ?Hnm, ?Hpl. reflexivity.
Qed.

Lemma network_text_roundtrip_slash29 :
  exists net net',
    ip_network "192.168.1.13/255.255.255.248" false = Ok (Net4 net)
    /\ V4.str net = "192.168.1.8/29"
    /\ ip_network (V4.str net) true = Ok (Net4 net')
    /\ host_strings (Net4 net') = host_strings (Net4 net).
Proof.
  assert (Hn : exists net,
             ip_network "192.168.1.13/255.255.255.248" false
             = Ok (Net4 net) /\ V4.str net = "192.168.1.8/29")
    by (eexists; split; vm_compute; reflexivity).
  destruct Hn as (net & Hn & Hs).
  destruct (network_text_roundtrip _ _ Hn) as (net' & H1 & _ & _ & _ & H5).
  exists net, net'. repeat split; assumption.
Defined.

Lemma range_sorted : forall a b, StronglySorted Z.lt (range a b).
Proof.
  intros a b. unfold range. generalize (Z.to_nat (b - a)) as n.
  generalize 0%nat as s.
  intros s n. revert s. induction n as [|n IH]; intros s; simpl.
  - constructor.
  - constructor; [apply IH |].
    apply Forall_forall. intros x Hx. apply in_map_iff in Hx.
    destruct Hx as (i & <- & Hi). apply in_seq in Hi. lia.
Qed.

Lemma land_netmask_in_block :
  forall a p h,
    0 <= a < 2 ^ 32 -> 0 <= p <= 32 ->
    let nm := _ip_int_from_prefix V4._max_prefixlen p in
    Z.land a nm <= h <= Z.lor (Z.land a nm) (Z.lxor nm V4._ALL_ONES) ->
    Z.land h nm = Z.land a nm.
Proof.
  intros a p h Ha Hp nm Hh.
  destruct (block_facts a p Ha Hp) as (Hnet & Hbc & Hnet_le & Hbc_le).
  cbv zeta in Hnet, Hbc, Hnet_le, Hbc_le. fold nm in Hnet, Hbc, Hnet_le, Hbc_le.
  assert (Hall1 : V4._ALL_ONES = 2 ^ 32 - 1) by reflexivity.
  assert (Hrh : 0 <= h < 2 ^ 32) by lia.
  destruct (block_facts h p Hrh Hp) as (Hh1 & _). cbv zeta in Hh1.
  fold nm in Hh1. rewrite Hh1.
  assert (Hpow : 0 < 2 ^ (32 - p)) by (apply Z.pow_pos_nonneg; lia).
  set (m := 2 ^ (32 - p)) in *.
  set (na := Z.land a nm) in *.
  assert (Hmul : na = m * (a / m)).
  { pose proof (Z.div_mod a m). lia. }
  assert (Hmod : h mod m = h - na).
  { replace h with ((h - na) + (a / m) * m) at 1 by lia.
    rewrite Z.mod_add by lia. apply Z.mod_small. lia. }
  lia.
Qed.

(** X11: the hosts of an IPv4 range are enumerated, hence submitted, in
    strictly ascending order of address, and each of them lies in the range:
    masked with the netmask it gives the network address. *)
Theorem hosts_ascend_inside_the_network :
  forall (subnet : string) (net : V4.IPv4Network) (l : list Z),
    ip_network subnet false = Ok (Net4 net) ->
    V4.hosts net = Ok l ->
    StronglySorted Z.lt l
    /\ Forall (fun h => Z.land h (V4.netmask net) = V4.network_address net)
         l.
Proof.
  intros subnet net l Hn Hl. apply ip_network_v4 in Hn.
  destruct (network_facts subnet net Hn) as (Hp & Hna0 & Hbc & Hb & Hh).
  rewrite Hl in Hh. inversion Hh; subst l; clear Hh.
  destruct (IPv4Network_init_spec subnet net Hn)
    as (addr & mask & a & p & _ & _ & _ & Hp' & Hra & Hna & Hnm & Hpl & _).
  assert (Hpow : 0 < 2 ^ (32 - V4._prefixlen net))
    by (apply Z.pow_pos_nonneg; lia).
  assert (Hin : forall h,
             V4.network_address net <= h <= V4.broadcast_address net ->
             Z.land h (V4.netmask net) = V4.network_address net).
  { intros h Hh. rewrite Hnm, Hna.
    apply land_netmask_in_block; [exact Hra | exact Hp' |].
    cbv zeta. rewrite <- Hna, <- Hnm. exact Hh. }
  split.
  - destruct (V4._prefixlen net =? 31) eqn:E31;
      [| destruct (V4._prefixlen net =? 32)].
    + apply Z.eqb_eq in E31. rewrite E31 in Hb.
      change (2 ^ (32 - 31)) with 2 in Hb.
      constructor; [constructor; constructor |].
      constructor; [lia | constructor].
    + constructor; constructor.
    + apply range_sorted.
  - apply Forall_forall. intros h Hh. apply Hin.
    destruct (V4._prefixlen net =? 31); [| destruct (V4._prefixlen net =? 32)].
    + destruct Hh as [<- | [<- | []]]; lia.
    + destruct Hh as [<- | []]; lia.
    + apply range_In in Hh. lia.
Qed.

Lemma hosts_ascend_inside_the_network_slash30 :
  exists net l,
    ip_network "192.168.1.0/30" false = Ok (Net4 net)
    /\ V4.hosts net = Ok l
    /\ l = [3232235777; 3232235778]
    /\ StronglySorted Z.lt l.
Proof.
  assert (H : exists net,
             ip_network "192.168.1.0/30" false = Ok (Net4 net)
             /\ V4.hosts net = Ok [3232235777; 3232235778])
    by (eexists; split; vm_compute; reflexivity).
  destruct H as (net & Hn & Hl).
  exists net, [3232235777; 3232235778].
  split; [exact Hn |]. split; [exact Hl |]. split; [reflexivity |].
  exact (proj1 (hosts_ascend_inside_the_network _ _ _ Hn Hl)).
Defined.

(** ** The probe and its command, once more *)

(** X1: [ping] swallows only what is an [Exception]: an exception that is
    not one, such as [KeyboardInterrupt] or [SystemExit], leaves [ping]
    unchanged, whether it comes from opening the null device or from running
    the command. *)
Theorem ping_lets_base_exceptions_through :
  forall (OS : string) (w : world) (host : string) (e : exn),
    isinstance e Exception = false ->
    open_devnull w = Raise e
    \/ (open_devnull w = Ok tt
        /\ subprocess_run w (build_ping_cmd OS host) = Raise e) ->
    ping OS w host = Raise e.
Proof.
  intros OS w host e He [Ho | [Ho Hr]]; unfold ping, try_except, bind.
  - rewrite Ho, He. reflexivity.
  - rewrite Ho, Hr, He. reflexivity.
Qed.

Lemma ping_lets_base_exceptions_through_interrupt :
  isinstance KeyboardInterrupt Exception = false
  /\ ping "linux" world_interrupted "10.0.0.1" = Raise KeyboardInterrupt.
Proof.
  assert (He : isinstance KeyboardInterrupt Exception = false)
    by reflexivity.
  split; [exact He |].
  apply (ping_lets_base_exceptions_through "linux" world_interrupted
           "10.0.0.1" KeyboardInterrupt He).
  right. split; reflexivity.
Defined.

(** X2: on every platform the command has six words, asks for one echo
    request and ends with the host as given; its timeout argument is the 800
    of [PING_TIMEOUT_MS] exactly on Windows. *)
Theorem ping_command_shape :
  forall (OS host : string),
    List.length (build_ping_cmd OS host) = 6%nat
    /\ nth 0 (build_ping_cmd OS host) "" = "ping"
    /\ nth 2 (build_ping_cmd OS host) "" = "1"
    /\ nth 5 (build_ping_cmd OS host) "" = host
    /\ (nth 4 (build_ping_cmd OS host) "" = "800" <-> OS = "windows").
Proof.
  intros OS host. unfold build_ping_cmd.
  destruct (String.eqb OS "windows") eqn:E.
  - apply String.eqb_eq in E. repeat split; try reflexivity.
    intros _. exact E.
  - apply String.eqb_neq in E. repeat split; try reflexivity.
    + intros H. vm_compute in H. discriminate H.
    + intros H. contradiction.
Qed.

(** ** The entry point *)

Lemma lstrip_spaces :
  forall s, all_chars is_space s = true -> lstrip s = "".
Proof.
  intros s. induction s as [|c s IH]; simpl; intros H.
  - reflexivity.
  - apply andb_true_iff in H. destruct H as [Hc Hs].
    rewrite Hc. exact (IH Hs).
Qed.

Lemma lstrip_head :
  forall s c t, lstrip s = String c t -> is_space c = false.
Proof.
  intros s. induction s as [|d s IH]; simpl; intros c t H.
  - discriminate.
  - destruct (is_space d) eqn:E.
    + exact (IH c t H).
    + inversion H; subst. exact E.
Qed.

Lemma lstrip_split :
  forall s,
    exists a, s = (a ++ lstrip s)%string /\ all_chars is_space a = true.
Proof.
  intros s. induction s as [|c s IH]; simpl.
  - exists "". split; reflexivity.
  - destruct (is_space c) eqn:E.
    + destruct IH as (a & Ha & Hsp). exists (String c a). split.
      * simpl. rewrite <- Ha. reflexivity.
      * simpl. rewrite E. exact Hsp.
    + exists "". split; reflexivity.
Qed.

Lemma rstrip_split :
  forall s,
    exists b, s = (rstrip s ++ b)%string /\ all_chars is_space b = true.
Proof.
  intros s. induction s as [|c s IH]; simpl.
  - exists "". split; reflexivity.
  - destruct IH as (b & Hb & Hsp).
    destruct (rstrip s) as [|d t] eqn:E.
    + destruct (is_space c) eqn:Ec.
      * exists (String c s). split; [reflexivity |].
        simpl. rewrite Ec. simpl in Hb. rewrite Hb. exact Hsp.
      * exists b. split; [| exact Hsp].
        simpl. simpl in Hb. rewrite <- Hb. reflexivity.
    + exists b. split; [| exact Hsp].
      simpl. simpl in Hb. rewrite <- Hb. reflexivity.
Qed.

Lemma rstrip_empty :
  forall s, rstrip s = "" -> all_chars is_space s = true.
Proof.
  intros s. induction s as [|c s IH]; simpl; intros H.
  - reflexivity.
  - destruct (rstrip s) as [|d t]; [| discriminate].
    destruct (is_space c); [| discriminate].
    simpl. exact (IH eq_refl).
Qed.

Lemma rstrip_last :
  forall s, rstrip s <> "" ->
    exists t c, rstrip s = (t ++ String c "")%string /\ is_space c = false.
Proof.
  intros s. induction s as [|c s IH]; simpl; intros H.
  - contradiction.
  - destruct (rstrip s) as [|d u] eqn:E.
    + destruct (is_space c) eqn:Ec; [contradiction |].
      exists "", c. split; [reflexivity | exact Ec].
    + destruct IH as (t & c' & Ht & Hc); [discriminate |].
      exists (String c t), c'. split; [| exact Hc].
      simpl. rewrite <- Ht. reflexivity.
Qed.

Lemma rstrip_head :
  forall s c t, rstrip s = String c t -> exists u, s = String c u.
Proof.
  intros s c t H. destruct s as [|d s]; simpl in H; [discriminate |].
  destruct (rstrip s).
  - destruct (is_space d); [discriminate |].
    inversion H; subst. eexists. reflexivity.
  - inversion H; subst. eexists. reflexivity.
Qed.

(** X12: what [strip] does to a line: the line is the stripped text between
    two runs of white space, and the stripped text neither starts nor ends
    with white space; it is empty exactly for a line of white space only. *)
Theorem strip_removes_outer_white_space :
  forall (line : string),
    (exists a b,
        line = (a ++ strip line ++ b)%string
        /\ all_chars is_space a = true /\ all_chars is_space b = true)
    /\ (forall c t, strip line = String c t -> is_space c = false)
    /\ (forall t c,
           strip line = (t ++ String c "")%string -> is_space c = false)
    /\ (strip line = "" <-> all_chars is_space line = true).
Proof.
  intros line. unfold strip. split; [| split; [| split]].
  - destruct (lstrip_split line) as (a & Ha & Hsa).
    destruct (rstrip_split (lstrip line)) as (b & Hb & Hsb).
    exists a, b. split; [| split; assumption].
    rewrite <- Hb. exact Ha.
  - intros c t H. destruct (rstrip_head _ _ _ H) as (u & Hu).
    exact (lstrip_head _ _ _ Hu).
  - intros t c H.
    destruct (rstrip_last (lstrip line)) as (t' & c' & Ht & Hc).
    { rewrite H. destruct t; discriminate. }
    rewrite H in Ht.
    assert (Hlast : forall (x y : string) (d e : ascii),
               (x ++ String d "")%string = (y ++ String e "")%string ->
               d = e).
    { clear. intros x. induction x as [|p x IH]; intros y d e Hxy.
      - destruct y as [|q y]; simpl in Hxy.
        + inversion Hxy; reflexivity.
        + inversion Hxy. destruct y; discriminate.
      - destruct y as [|q y]; simpl in Hxy.
        + inversion Hxy. destruct x; discriminate.
        + inversion Hxy. exact (IH y d e H1). }
    rewrite (Hlast _ _ _ _ Ht). exact Hc.
  - split.
    + intros H. apply rstrip_empty in H.
      destruct (lstrip line) as [|c t] eqn:E.
      * destruct (lstrip_split line) as (a & Ha & Hsa).
        rewrite E in Ha. rewrite Ha.
        clear - Hsa. induction a as [|d a IH]; simpl in *; [reflexivity |].
        apply andb_true_iff in Hsa. destruct Hsa as [Hd Ha].
        rewrite Hd. exact (IH Ha).
      * simpl in H. rewrite (lstrip_head _ _ _ E) in H. discriminate.
    + intros H. rewrite (lstrip_spaces _ H). reflexivity.
Qed.

(** X13: a line of white space only starts no sweep: [main] says so and
    returns, and nothing is probed. *)
Theorem blank_line_starts_no_sweep :
  forall (OS line : string) (schedule : list event)
         (gethostbyaddr : string -> lookup) (e : ending)
         (out : list message),
    all_chars is_space line = true ->
    main OS (Ok line) schedule gethostbyaddr = Some (e, out) ->
    schedule = [] /\ e = Returns /\ out = [Banner; NoSubnetEntered].
Proof.
  intros OS line schedule resolver e out Hsp H.
  unfold main in H. cbv zeta in H.
  unfold strip in H. rewrite (lstrip_spaces _ Hsp) in H. simpl in H.
  destruct schedule; [| discriminate].
  inversion H; subst. repeat split.
Qed.

Lemma blank_line_starts_no_sweep_tab :
  exists e out,
    all_chars is_space (String (ascii_of_nat 9) " ") = true
    /\ main "linux" (Ok (String (ascii_of_nat 9) " ")) []
         (fun _ => Herror) = Some (e, out)
    /\ e = Returns.
Proof.
  assert (Hsp : all_chars is_space (String (ascii_of_nat 9) " ") = true)
    by reflexivity.
  assert (Hm : main "linux" (Ok (String (ascii_of_nat 9) " ")) []
                 (fun _ => Herror)
               = Some (Returns, [Banner; NoSubnetEntered]))
    by reflexivity.
  exists Returns, [Banner; NoSubnetEntered].
  split; [exact Hsp |]. split; [exact Hm |].
  exact (proj1 (proj2 (blank_line_starts_no_sweep _ _ _ _ _ _ Hsp Hm))).
Defined.

Lemma devices_app :
  forall a b, devices (a ++ b) = devices a ++ devices b.
Proof.
  intros a b. induction a as [|m a IH]; simpl.
  - reflexivity.
  - destruct m; simpl; rewrite IH; reflexivity.
Qed.

Lemma report_devices_all :
  forall resolver ups out,
    (forall ip, In ip ups -> forall x, resolver ip <> LookupRaises x) ->
    report_devices resolver ups out
    = (Returns,
       out ++ map (fun ip => Device ip (hostname_of (resolver ip))) ups).
Proof.
  intros resolver ups. induction ups as [|ip rest IH]; intros out H; simpl.
  - rewrite app_nil_r. reflexivity.
  - assert (Hrest : forall ip0, In ip0 rest ->
                                forall x, resolver ip0 <> LookupRaises x)
      by (intros ip0 Hin; apply H; right; exact Hin).
    pose proof (H ip (or_introl eq_refl)) as Hip.
    destruct (resolver ip) as [h| |x] eqn:E.
    + rewrite (IH _ Hrest), <- app_assoc. reflexivity.
    + rewrite (IH _ Hrest), <- app_assoc. reflexivity.
    + exfalso. exact (Hip x eq_refl).
Qed.

Lemma report_devices_stops :
  forall resolver a ip b out x,
    (forall ip0, In ip0 a -> forall y, resolver ip0 <> LookupRaises y) ->
    resolver ip = LookupRaises x ->
    report_devices resolver (a ++ ip :: b) out
    = (Raises x,
       out ++ map (fun ip => Device ip (hostname_of (resolver ip))) a).
Proof.
  intros resolver a. induction a as [|ip0 a IH]; intros ip b out x Ha Hx;
    simpl.
  - rewrite Hx, app_nil_r. reflexivity.
  - assert (Hrest : forall ip1, In ip1 a ->
                                forall y, resolver ip1 <> LookupRaises y)
      by (intros ip1 Hin; apply Ha; right; exact Hin).
    pose proof (Ha ip0 (or_introl eq_refl)) as Hip.
    destruct (resolver ip0) as [h| |y] eqn:E.
    + rewrite (IH _ _ _ _ Hrest Hx), <- app_assoc. reflexivity.
    + rewrite (IH _ _ _ _ Hrest Hx), <- app_assoc. reflexivity.
    + exfalso. exact (Hip y eq_refl).
Qed.


(** X17: a host whose reverse lookup raises [socket.herror] is listed with a
    dash and the listing goes on: when no lookup raises anything else,
    [main] lists every host that is up, once, in the order given, each with
    its name or with the dash. *)
Theorem unresolved_hosts_are_listed_with_a_dash :
  forall (gethostbyaddr : string -> lookup) (ups : list string)
         (out : list message),
    (forall ip, In ip ups -> forall x, gethostbyaddr ip <> LookupRaises x) ->
    exists out',
      report_devices gethostbyaddr ups out = (Returns, out')
      /\ devices out'
         = devices out
             ++ map (fun ip => (ip, hostname_of (gethostbyaddr ip))) ups
      /\ (forall ip, In ip ups -> gethostbyaddr ip = Herror ->
                     In (Device ip None) out').
Proof.
  intros resolver ups out H.
  eexists. split; [exact (report_devices_all resolver ups out H) |].
  split.
  - rewrite devices_app. f_equal.
    clear. induction ups as [|ip ups IH]; simpl; [reflexivity |].
    rewrite IH. reflexivity.
  - intros ip Hin Hh. apply in_or_app. right.
    apply in_map_iff. exists ip. split; [| exact Hin].
    rewrite Hh. reflexivity.
Qed.

Lemma unresolved_hosts_are_listed_with_a_dash_two :
  exists out',
    report_devices
      (fun ip => if String.eqb ip "10.0.0.1" then Resolved "gw" else Herror)
      ["10.0.0.1"; "10.0.0.2"] [DiscoveredDevices]
    = (Returns, out')
    /\ devices out' = [("10.0.0.1", Some "gw"); ("10.0.0.2", None)].
Proof.
  destruct (unresolved_hosts_are_listed_with_a_dash
              (fun ip => if String.eqb ip "10.0.0.1"
                         then Resolved "gw" else Herror)
              ["10.0.0.1"; "10.0.0.2"] [DiscoveredDevices])
    as (out' & H1 & H2 & _).
  - intros ip _ x. destruct (String.eqb ip "10.0.0.1"); discriminate.
  - exists out'. split; [exact H1 |]. rewrite H2. reflexivity.
Defined.

(** X18: a reverse lookup that raises anything but [socket.herror] ends the
    listing and [main]: the exception leaves the loop, the hosts before the
    failing one have been listed and the failing one and those after it have
    not. *)
Theorem other_lookup_errors_end_the_listing :
  forall (gethostbyaddr : string -> lookup) (before after : list string)
         (ip : string) (out : list message) (x : exn),
    (forall ip0, In ip0 before ->
                 forall y, gethostbyaddr ip0 <> LookupRaises y) ->
    gethostbyaddr ip = LookupRaises x ->
    exists out',
      report_devices gethostbyaddr (before ++ ip :: after) out
      = (Raises x, out')
      /\ map fst (devices out') = map fst (devices out) ++ before.
Proof.
  intros resolver before after ip out x Hb Hx.
  eexists. split; [exact (report_devices_stops _ _ _ _ _ _ Hb Hx) |].
  rewrite devices_app, map_app. f_equal.
  clear. induction before as [|ip0 l IH]; simpl; [reflexivity |].
  rewrite IH. reflexivity.
Qed.

Lemma other_lookup_errors_end_the_listing_oserror :
  exists out',
    report_devices
      (fun ip => if String.eqb ip "10.0.0.1" then Herror
                 else LookupRaises OSError)
      (["10.0.0.1"] ++ "10.0.0.2" :: ["10.0.0.3"]) []
    = (Raises OSError, out')
    /\ map fst (devices out') = ["10.0.0.1"].
Proof.
  destruct (other_lookup_errors_end_the_listing
              (fun ip => if String.eqb ip "10.0.0.1" then Herror
                         else LookupRaises OSError)
              ["10.0.0.1"] ["10.0.0.3"] "10.0.0.2" [] OSError)
    as (out' & H1 & H2).
  - intros ip0 [<- | []] y. discriminate.
  - reflexivity.
  - exists out'. split; [exact H1 | exact H2].
Defined.










